(** * Safari manager: the simulation core, embedded and verified

  A shallow embedding of the TypeScript simulation core of the safari
  park manager (map.ts, sprite.ts, animal.ts, herbivore.ts, carnivore.ts,
  jeep.ts, visitor.ts, safariModel.ts, signal.ts) and the proofs of
  the properties its specification states about it.

  Conventions of the embedding.
  - A JavaScript [number] is a rational ([Q]); grid indices, counters and
    thresholds that the program only uses as integers are [Z] or [nat].
    [===] on numbers is [Qeq_bool].  Non-finite numbers are outside the
    model; the places where the program can produce one are marked.
  - Objects live in a store.  Every [Sprite] ever constructed sits in
    [heap] at the index given by its registration number (the static
    counter [Sprite.uuid] is the length of the heap); lists of sprites
    hold these numbers, so object identity ([===], [!==]) is equality of
    registration numbers and a mutation is seen through every reference.
  - The array bound to [Map._sprites] is an object of its own: [addSprite]
    pushes onto it in place, [removeSprite] binds a new (filtered) array.
    The store [arrays] keeps every such array, [Map.sprites] is the index
    of the one currently bound.
  - A position array that is shared between objects (a carnivore's target
    is the live position array of its prey) is a [PosRef].
  - The global signals of signal.ts are the functions [emit_*], each one
    running the listeners that the constructors of [Map] and
    [SafariModel] connect, in connection order, and logging the emission.
  - [Math.sqrt], [Math.cos], [Math.sin], [Math.PI], [Math.random] and the
    JSON definition data are not part of the repository's code: they are
    the fields of [Env]. *)

From Stdlib Require Import ZArith QArith Qminmax Qabs Qround.
From Stdlib Require Import List Bool String Lia Lqa PeanoNat.
Import ListNotations.

Set Implicit Arguments.
Local Open Scope Q_scope.

(* ===================================================================== *)
(** ** JavaScript primitives *)
(* ===================================================================== *)

Module JS.

Definition pos : Type := (Q * Q)%type.
Definition cell : Type := (Z * Z)%type.

(** [a < b] on numbers. *)
Definition Qlt_bool (a b : Q) : bool := negb (Qle_bool b a).

Definition Math_floor (q : Q) : Z := Qfloor q.
Definition Math_abs (q : Q) : Q := Qabs q.
Definition Math_max (a b : Q) : Q := Qmax a b.
Definition Math_min (a b : Q) : Q := Qmin a b.

Definition cell_eqb (a b : cell) : bool :=
  (fst a =? fst b)%Z && (snd a =? snd b)%Z.

Definition pos_eqb (a b : pos) : bool :=
  Qeq_bool (fst a) (fst b) && Qeq_bool (snd a) (snd b).

Definition pos_of_cell (c : cell) : pos := (inject_Z (fst c), inject_Z (snd c)).

(** [arr[i] = x] for an index inside the array. *)
Fixpoint update (A : Type) (l : list A) (i : nat) (x : A) : list A :=
  match l, i with
  | [], _ => []
  | _ :: t, O => x :: t
  | h :: t, S j => h :: update t j x
  end.

(** [arr.findIndex(p)], [None] standing for -1. *)
Fixpoint findIndex (A : Type) (p : A -> bool) (l : list A) : option nat :=
  match l with
  | [] => None
  | h :: t => if p h then Some O
              else match findIndex p t with
                   | Some i => Some (S i)
                   | None => None
                   end
  end.

(** [arr.splice(i, 1)]. *)
Fixpoint splice1 (A : Type) (i : nat) (l : list A) : list A :=
  match l, i with
  | [], _ => []
  | _ :: t, O => t
  | h :: t, S j => h :: splice1 j t
  end.

(** [arr.some(p)] and [arr.includes(x)] for naturals. *)
Definition mem_nat (x : nat) (l : list nat) : bool := existsb (Nat.eqb x) l.

(** [Set.add]: insertion order is kept, a member is not added again. *)
Definition set_add (A : Type) (eqb : A -> A -> bool) (x : A) (l : list A) : list A :=
  if existsb (eqb x) l then l else l ++ [x].

(** The sum a [reduce] with [+] from 0 computes. *)
Definition sumQ (l : list Q) : Q := fold_left Qplus l 0.

End JS.
Import JS.

(* ===================================================================== *)
(** ** The data model *)
(* ===================================================================== *)

(** *** tiles/tile.ts *)
Module Tile.

(** [TileJson], the definition record of a tile kind. *)
Record Json : Type := {
  buyPrice : Q;
  isObstacle : bool;
  isEdible : bool;
  isWater : bool;
  isAlwaysVisible : bool;
  fallbackTile : string
}.

(** A tile: its kind id ([toString()]), its grid position and its loaded
    definition data.  A tile is never mutated after it is loaded. *)
Record t : Type := {
  id : string;
  position : cell;
  jsonData : Json
}.

(** Identity of tile objects.  A cell holds one tile at a time, so two
    tile objects are told apart by kind and cell. *)
Definition same (a b : t) : bool :=
  String.eqb (id a) (id b) && cell_eqb (position a) (position b).

Definition same_opt (a b : option t) : bool :=
  match a, b with
  | Some x, Some y => same x y
  | None, None => true
  | _, _ => false
  end.

Definition isKind (kind : string) (tl : t) : bool := String.eqb (id tl) kind.

Definition Road : string := "safari:road".
Definition Entrance : string := "safari:entrance".
Definition Exit : string := "safari:exit".
Definition Sand : string := "safari:sand".
Definition Hill : string := "safari:hill".

End Tile.

(** *** visitor.ts (data) *)
Module VisitorData.
Record t : Type := {
  wantsRating : Z;
  willingToPay : Q;
  wantsToSeeCarnivores : Z;
  wantsToSeeHerbivores : Z;
  seenAnimals : list nat
}.
End VisitorData.

(** *** sprites/sprite.ts, animal.ts, jeep.ts (data) *)
Module Sprite.

Inductive Class : Type := Herbivore | Carnivore | Ranger | Poacher | Jeep.

Definition isAnimal (c : Class) : bool :=
  match c with Herbivore | Carnivore => true | _ => false end.

(** [SpriteJson] with the fields [AnimalJson] and [RangerJson] add. *)
Record Json : Type := {
  buyPrice : Q;
  baseViewDistance : Q;
  speed : Q;
  size : Q;
  chipPrice : Q;
  salary : Q
}.

(** A reference to a position array: an array nobody else mutates, or
    the live position array of the sprite with that registration number. *)
Inductive PosRef : Type :=
| Fixed (p : pos)
| PositionOf (reg : nat).

Inductive NeedStatus : Type := NeedNone | NeedFood | NeedDrink.

(** The fields class [Animal] adds ([seenHerbivores] is [Carnivore]'s;
    its keys are registration numbers, its values the live positions). *)
Record AnimalData : Type := {
  age : Q;
  isCaptured : bool;
  group : Z;
  hasChip : bool;
  isWandering : bool;
  targetNeed : NeedStatus;
  foodLevel : Q;
  hydrationLevel : Q;
  seenFoodPositions : list PosRef;
  seenWaterPositions : list PosRef;
  seenHerbivores : list nat
}.

(** The fields class [Jeep] adds. *)
Record JeepData : Type := {
  passengers : list VisitorData.t;
  path : list Tile.t
}.

(** A sprite object.  [cls] and [id] are its class; [animal] is
    meaningful for the animal classes and [jeep] for jeeps.  The fields
    that only [Ranger.act] and [Poacher.act] read are not represented. *)
Record t : Type := {
  regNumber : nat;
  cls : Class;
  id : string;
  jsonData : Json;
  position : pos;
  pathTo : option PosRef;
  velocity : pos;
  isOnHill : bool;
  visibleTiles : list Tile.t;
  visibleSprites : list nat;
  restingTime : Q;
  lastTile : option Tile.t;
  animal : AnimalData;
  jeep : JeepData
}.

Definition set_position (p : pos) (s : t) : t :=
  {| regNumber := regNumber s; cls := cls s; id := id s; jsonData := jsonData s;
     position := p; pathTo := pathTo s; velocity := velocity s;
     isOnHill := isOnHill s; visibleTiles := visibleTiles s;
     visibleSprites := visibleSprites s; restingTime := restingTime s;
     lastTile := lastTile s; animal := animal s; jeep := jeep s |}.

Definition set_pathTo (p : option PosRef) (s : t) : t :=
  {| regNumber := regNumber s; cls := cls s; id := id s; jsonData := jsonData s;
     position := position s; pathTo := p; velocity := velocity s;
     isOnHill := isOnHill s; visibleTiles := visibleTiles s;
     visibleSprites := visibleSprites s; restingTime := restingTime s;
     lastTile := lastTile s; animal := animal s; jeep := jeep s |}.

Definition set_velocity (v : pos) (s : t) : t :=
  {| regNumber := regNumber s; cls := cls s; id := id s; jsonData := jsonData s;
     position := position s; pathTo := pathTo s; velocity := v;
     isOnHill := isOnHill s; visibleTiles := visibleTiles s;
     visibleSprites := visibleSprites s; restingTime := restingTime s;
     lastTile := lastTile s; animal := animal s; jeep := jeep s |}.

Definition set_isOnHill (b : bool) (s : t) : t :=
  {| regNumber := regNumber s; cls := cls s; id := id s; jsonData := jsonData s;
     position := position s; pathTo := pathTo s; velocity := velocity s;
     isOnHill := b; visibleTiles := visibleTiles s;
     visibleSprites := visibleSprites s; restingTime := restingTime s;
     lastTile := lastTile s; animal := animal s; jeep := jeep s |}.

Definition set_visibles (ts : list Tile.t) (ss : list nat) (s : t) : t :=
  {| regNumber := regNumber s; cls := cls s; id := id s; jsonData := jsonData s;
     position := position s; pathTo := pathTo s; velocity := velocity s;
     isOnHill := isOnHill s; visibleTiles := ts;
     visibleSprites := ss; restingTime := restingTime s;
     lastTile := lastTile s; animal := animal s; jeep := jeep s |}.

Definition set_restingTime (r : Q) (s : t) : t :=
  {| regNumber := regNumber s; cls := cls s; id := id s; jsonData := jsonData s;
     position := position s; pathTo := pathTo s; velocity := velocity s;
     isOnHill := isOnHill s; visibleTiles := visibleTiles s;
     visibleSprites := visibleSprites s; restingTime := r;
     lastTile := lastTile s; animal := animal s; jeep := jeep s |}.

Definition set_lastTile (l : option Tile.t) (s : t) : t :=
  {| regNumber := regNumber s; cls := cls s; id := id s; jsonData := jsonData s;
     position := position s; pathTo := pathTo s; velocity := velocity s;
     isOnHill := isOnHill s; visibleTiles := visibleTiles s;
     visibleSprites := visibleSprites s; restingTime := restingTime s;
     lastTile := l; animal := animal s; jeep := jeep s |}.

Definition set_animal (a : AnimalData) (s : t) : t :=
  {| regNumber := regNumber s; cls := cls s; id := id s; jsonData := jsonData s;
     position := position s; pathTo := pathTo s; velocity := velocity s;
     isOnHill := isOnHill s; visibleTiles := visibleTiles s;
     visibleSprites := visibleSprites s; restingTime := restingTime s;
     lastTile := lastTile s; animal := a; jeep := jeep s |}.

Definition set_jeep (j : JeepData) (s : t) : t :=
  {| regNumber := regNumber s; cls := cls s; id := id s; jsonData := jsonData s;
     position := position s; pathTo := pathTo s; velocity := velocity s;
     isOnHill := isOnHill s; visibleTiles := visibleTiles s;
     visibleSprites := visibleSprites s; restingTime := restingTime s;
     lastTile := lastTile s; animal := animal s; jeep := j |}.

(** Setters of the animal fields. *)
Definition with_age (q : Q) (a : AnimalData) : AnimalData :=
  {| age := q; isCaptured := isCaptured a; group := group a; hasChip := hasChip a;
     isWandering := isWandering a; targetNeed := targetNeed a;
     foodLevel := foodLevel a; hydrationLevel := hydrationLevel a;
     seenFoodPositions := seenFoodPositions a;
     seenWaterPositions := seenWaterPositions a;
     seenHerbivores := seenHerbivores a |}.

Definition with_isCaptured (b : bool) (a : AnimalData) : AnimalData :=
  {| age := age a; isCaptured := b; group := group a; hasChip := hasChip a;
     isWandering := isWandering a; targetNeed := targetNeed a;
     foodLevel := foodLevel a; hydrationLevel := hydrationLevel a;
     seenFoodPositions := seenFoodPositions a;
     seenWaterPositions := seenWaterPositions a;
     seenHerbivores := seenHerbivores a |}.

Definition with_group (g : Z) (a : AnimalData) : AnimalData :=
  {| age := age a; isCaptured := isCaptured a; group := g; hasChip := hasChip a;
     isWandering := isWandering a; targetNeed := targetNeed a;
     foodLevel := foodLevel a; hydrationLevel := hydrationLevel a;
     seenFoodPositions := seenFoodPositions a;
     seenWaterPositions := seenWaterPositions a;
     seenHerbivores := seenHerbivores a |}.

Definition with_hasChip (b : bool) (a : AnimalData) : AnimalData :=
  {| age := age a; isCaptured := isCaptured a; group := group a; hasChip := b;
     isWandering := isWandering a; targetNeed := targetNeed a;
     foodLevel := foodLevel a; hydrationLevel := hydrationLevel a;
     seenFoodPositions := seenFoodPositions a;
     seenWaterPositions := seenWaterPositions a;
     seenHerbivores := seenHerbivores a |}.

Definition with_isWandering (b : bool) (a : AnimalData) : AnimalData :=
  {| age := age a; isCaptured := isCaptured a; group := group a; hasChip := hasChip a;
     isWandering := b; targetNeed := targetNeed a;
     foodLevel := foodLevel a; hydrationLevel := hydrationLevel a;
     seenFoodPositions := seenFoodPositions a;
     seenWaterPositions := seenWaterPositions a;
     seenHerbivores := seenHerbivores a |}.

Definition with_targetNeed (n : NeedStatus) (a : AnimalData) : AnimalData :=
  {| age := age a; isCaptured := isCaptured a; group := group a; hasChip := hasChip a;
     isWandering := isWandering a; targetNeed := n;
     foodLevel := foodLevel a; hydrationLevel := hydrationLevel a;
     seenFoodPositions := seenFoodPositions a;
     seenWaterPositions := seenWaterPositions a;
     seenHerbivores := seenHerbivores a |}.

Definition with_foodLevel (q : Q) (a : AnimalData) : AnimalData :=
  {| age := age a; isCaptured := isCaptured a; group := group a; hasChip := hasChip a;
     isWandering := isWandering a; targetNeed := targetNeed a;
     foodLevel := q; hydrationLevel := hydrationLevel a;
     seenFoodPositions := seenFoodPositions a;
     seenWaterPositions := seenWaterPositions a;
     seenHerbivores := seenHerbivores a |}.

Definition with_hydrationLevel (q : Q) (a : AnimalData) : AnimalData :=
  {| age := age a; isCaptured := isCaptured a; group := group a; hasChip := hasChip a;
     isWandering := isWandering a; targetNeed := targetNeed a;
     foodLevel := foodLevel a; hydrationLevel := q;
     seenFoodPositions := seenFoodPositions a;
     seenWaterPositions := seenWaterPositions a;
     seenHerbivores := seenHerbivores a |}.

Definition with_seenFoodPositions (l : list PosRef) (a : AnimalData) : AnimalData :=
  {| age := age a; isCaptured := isCaptured a; group := group a; hasChip := hasChip a;
     isWandering := isWandering a; targetNeed := targetNeed a;
     foodLevel := foodLevel a; hydrationLevel := hydrationLevel a;
     seenFoodPositions := l;
     seenWaterPositions := seenWaterPositions a;
     seenHerbivores := seenHerbivores a |}.

Definition with_seenWaterPositions (l : list PosRef) (a : AnimalData) : AnimalData :=
  {| age := age a; isCaptured := isCaptured a; group := group a; hasChip := hasChip a;
     isWandering := isWandering a; targetNeed := targetNeed a;
     foodLevel := foodLevel a; hydrationLevel := hydrationLevel a;
     seenFoodPositions := seenFoodPositions a;
     seenWaterPositions := l;
     seenHerbivores := seenHerbivores a |}.

Definition with_seenHerbivores (l : list nat) (a : AnimalData) : AnimalData :=
  {| age := age a; isCaptured := isCaptured a; group := group a; hasChip := hasChip a;
     isWandering := isWandering a; targetNeed := targetNeed a;
     foodLevel := foodLevel a; hydrationLevel := hydrationLevel a;
     seenFoodPositions := seenFoodPositions a;
     seenWaterPositions := seenWaterPositions a;
     seenHerbivores := l |}.

(** [get viewDistance]: 1.5 times the base distance on a hill. *)
Definition viewDistance (s : t) : Q :=
  if isOnHill s then baseViewDistance (jsonData s) * (3 # 2)
  else baseViewDistance (jsonData s).

(** The state the constructors of [Sprite], [Animal] and [Jeep] set up. *)
Definition initialAnimal (g : Z) : AnimalData :=
  {| age := 0; isCaptured := false; group := g; hasChip := false;
     isWandering := false; targetNeed := NeedNone;
     foodLevel := 100; hydrationLevel := 100;
     seenFoodPositions := []; seenWaterPositions := [];
     seenHerbivores := [] |}.

Definition initialJeep : JeepData := {| passengers := []; path := [] |}.

Definition construct (reg : nat) (c : Class) (i : string) (j : Json)
           (x y : Q) (g : Z) : t :=
  {| regNumber := reg; cls := c; id := i; jsonData := j;
     position := (x, y); pathTo := None; velocity := (0, 0);
     isOnHill := false; visibleTiles := []; visibleSprites := [];
     restingTime := 0; lastTile := None;
     animal := initialAnimal g; jeep := initialJeep |}.

End Sprite.

(** *** goals/goal.ts *)
Module Goal.
Record t : Type := {
  balance : Q;
  herbivores : Z;
  carnivores : Z;
  visitors : Z;
  forDays : Z
}.
End Goal.

(** *** map.ts (data) *)
Module MapData.

(** An entry of [_visiblesCache]. *)
Record CacheEntry : Type := {
  time : Q;
  position : cell;
  viewDistance : Q;
  visibleTiles : list Tile.t;
  visibleSprites : list nat
}.

Definition set_time (q : Q) (e : CacheEntry) : CacheEntry :=
  {| time := q; position := position e; viewDistance := viewDistance e;
     visibleTiles := visibleTiles e; visibleSprites := visibleSprites e |}.

(** The fields of class [Map].  [sprites] is the index, in the store of
    arrays, of the array currently bound to [_sprites]; [tiles] is indexed
    [x] first, as [_tiles[x][y]]. *)
Record t : Type := {
  width : Z;
  height : Z;
  tiles : list (list Tile.t);
  sprites : nat;
  groups : list (Z * string);
  waitingJeeps : list nat;
  waitingVisitors : list VisitorData.t;
  paths : list (list Tile.t);
  totalVisitorCount : Z;
  plantTimer : Q;
  poacherTimer : Q;
  visiblesCache : list CacheEntry
}.

Definition set_tiles (v : list (list Tile.t)) (m : t) : t :=
  {| width := width m; height := height m; tiles := v; sprites := sprites m;
     groups := groups m; waitingJeeps := waitingJeeps m;
     waitingVisitors := waitingVisitors m; paths := paths m;
     totalVisitorCount := totalVisitorCount m; plantTimer := plantTimer m;
     poacherTimer := poacherTimer m; visiblesCache := visiblesCache m |}.

Definition set_sprites (v : nat) (m : t) : t :=
  {| width := width m; height := height m; tiles := tiles m; sprites := v;
     groups := groups m; waitingJeeps := waitingJeeps m;
     waitingVisitors := waitingVisitors m; paths := paths m;
     totalVisitorCount := totalVisitorCount m; plantTimer := plantTimer m;
     poacherTimer := poacherTimer m; visiblesCache := visiblesCache m |}.

Definition set_groups (v : list (Z * string)) (m : t) : t :=
  {| width := width m; height := height m; tiles := tiles m; sprites := sprites m;
     groups := v; waitingJeeps := waitingJeeps m;
     waitingVisitors := waitingVisitors m; paths := paths m;
     totalVisitorCount := totalVisitorCount m; plantTimer := plantTimer m;
     poacherTimer := poacherTimer m; visiblesCache := visiblesCache m |}.

Definition set_waitingJeeps (v : list nat) (m : t) : t :=
  {| width := width m; height := height m; tiles := tiles m; sprites := sprites m;
     groups := groups m; waitingJeeps := v;
     waitingVisitors := waitingVisitors m; paths := paths m;
     totalVisitorCount := totalVisitorCount m; plantTimer := plantTimer m;
     poacherTimer := poacherTimer m; visiblesCache := visiblesCache m |}.


Definition set_paths (v : list (list Tile.t)) (m : t) : t :=
  {| width := width m; height := height m; tiles := tiles m; sprites := sprites m;
     groups := groups m; waitingJeeps := waitingJeeps m;
     waitingVisitors := waitingVisitors m; paths := v;
     totalVisitorCount := totalVisitorCount m; plantTimer := plantTimer m;
     poacherTimer := poacherTimer m; visiblesCache := visiblesCache m |}.

Definition set_totalVisitorCount (v : Z) (m : t) : t :=
  {| width := width m; height := height m; tiles := tiles m; sprites := sprites m;
     groups := groups m; waitingJeeps := waitingJeeps m;
     waitingVisitors := waitingVisitors m; paths := paths m;
     totalVisitorCount := v; plantTimer := plantTimer m;
     poacherTimer := poacherTimer m; visiblesCache := visiblesCache m |}.



Definition set_visiblesCache (v : list CacheEntry) (m : t) : t :=
  {| width := width m; height := height m; tiles := tiles m; sprites := sprites m;
     groups := groups m; waitingJeeps := waitingJeeps m;
     waitingVisitors := waitingVisitors m; paths := paths m;
     totalVisitorCount := totalVisitorCount m; plantTimer := plantTimer m;
     poacherTimer := poacherTimer m; visiblesCache := v |}.

End MapData.

(** *** safariModel.ts (data) *)
Module ModelData.

(** The fields of class [SafariModel] but [_map], which is the world's
    map.  [rating] is [None] when it is [NaN] (the rounded average of an
    empty list of ratings). *)
Record t : Type := {
  goal : Goal.t;
  rating : option Q;
  speed : Q;
  balance : Q;
  entryFee : Q;
  isOpen : bool;
  time : Q;
  timer : Q;
  daysGoalMet : Z;
  lastGoalCheckDay : Z
}.


Definition set_balance (v : Q) (m : t) : t :=
  {| goal := goal m; rating := rating m; speed := speed m; balance := v;
     entryFee := entryFee m; isOpen := isOpen m; time := time m; timer := timer m;
     daysGoalMet := daysGoalMet m; lastGoalCheckDay := lastGoalCheckDay m |}.

Definition set_isOpen (v : bool) (m : t) : t :=
  {| goal := goal m; rating := rating m; speed := speed m; balance := balance m;
     entryFee := entryFee m; isOpen := v; time := time m; timer := timer m;
     daysGoalMet := daysGoalMet m; lastGoalCheckDay := lastGoalCheckDay m |}.



End ModelData.

(* ===================================================================== *)
(** ** The environment and the world *)
(* ===================================================================== *)

(** What the program takes from outside: the [Math] library, the stream of
    results of [Math.random()] (indexed by the number of earlier calls),
    the definition data of the tile kinds ([None] for an id that is not in
    [tileRegistry]) and of the sprite kinds, and the ids the decorators
    put into the animal registries. *)
Record Env : Type := {
  Math_sqrt : Q -> Q;
  Math_cos : Q -> Q;
  Math_sin : Q -> Q;
  Math_PI : Q;
  Math_random : nat -> Q;
  tileData : string -> option Tile.Json;
  spriteData : string -> Sprite.Json;
  herbivoreRegistry : list string;
  carnivoreRegistry : list string
}.

(** The emissions of the signals of utils/signal.ts. *)
Inductive Signal : Type :=
| AnimalDead (reg : nat)
| ShooterDead (reg : nat)
| TourFinished (reg : nat)
| TourRatings (ratings : list Z)
| TourStart
| TileEaten (tl : Tile.t)
| UpdateVisibles (reg : nat) (important : bool)
| GoalMet
| Losing
| Bounty (amount : Q).

(** What an [async] function still has to do once the [load()] it awaits
    has resolved; none of it runs before the current tick has returned. *)
Inductive Deferred : Type :=
| PlaceTile (tl : Tile.t)
| LoadThenAddSprite (reg : nat).

Module World.

Record t : Type := {
  heap : list Sprite.t;
  arrays : list (list nat);
  map : MapData.t;
  model : ModelData.t;
  randomCalls : nat;
  pending : list Deferred;
  emitted : list Signal
}.

Definition set_heap (v : list Sprite.t) (w : t) : t :=
  {| heap := v; arrays := arrays w; map := map w; model := model w;
     randomCalls := randomCalls w; pending := pending w; emitted := emitted w |}.

Definition set_arrays (v : list (list nat)) (w : t) : t :=
  {| heap := heap w; arrays := v; map := map w; model := model w;
     randomCalls := randomCalls w; pending := pending w; emitted := emitted w |}.

Definition set_map (v : MapData.t) (w : t) : t :=
  {| heap := heap w; arrays := arrays w; map := v; model := model w;
     randomCalls := randomCalls w; pending := pending w; emitted := emitted w |}.

Definition set_model (v : ModelData.t) (w : t) : t :=
  {| heap := heap w; arrays := arrays w; map := map w; model := v;
     randomCalls := randomCalls w; pending := pending w; emitted := emitted w |}.

Definition set_randomCalls (v : nat) (w : t) : t :=
  {| heap := heap w; arrays := arrays w; map := map w; model := model w;
     randomCalls := v; pending := pending w; emitted := emitted w |}.

Definition set_pending (v : list Deferred) (w : t) : t :=
  {| heap := heap w; arrays := arrays w; map := map w; model := model w;
     randomCalls := randomCalls w; pending := v; emitted := emitted w |}.

Definition set_emitted (v : list Signal) (w : t) : t :=
  {| heap := heap w; arrays := arrays w; map := map w; model := model w;
     randomCalls := randomCalls w; pending := pending w; emitted := v |}.

(** Changing the map or the model in place. *)
Definition on_map (f : MapData.t -> MapData.t) (w : t) : t := set_map (f (map w)) w.
Definition on_model (f : ModelData.t -> ModelData.t) (w : t) : t :=
  set_model (f (model w)) w.

(** The object behind a reference. *)
Definition deref (w : t) (reg : nat) : option Sprite.t := nth_error (heap w) reg.

(** A field of the object behind a reference (a dangling reference, which
    the program cannot build, reads the default). *)
Definition read (A : Type) (w : t) (reg : nat) (f : Sprite.t -> A) (d : A) : A :=
  match deref w reg with
  | Some s => f s
  | None => d
  end.

(** Mutating the object behind a reference. *)
Definition modify (reg : nat) (f : Sprite.t -> Sprite.t) (w : t) : t :=
  match deref w reg with
  | Some s => set_heap (update (heap w) reg (f s)) w
  | None => w
  end.

(** [new]: the object gets the next registration number. *)
Definition alloc (mk : nat -> Sprite.t) (w : t) : nat * t :=
  (List.length (heap w), set_heap (heap w ++ [mk (List.length (heap w))]) w).

(** The value of a position reference at this moment. *)
Definition resolve (w : t) (r : Sprite.PosRef) : pos :=
  match r with
  | Sprite.Fixed p => p
  | Sprite.PositionOf reg => read w reg Sprite.position (0, 0)
  end.

(** [Math.random()]. *)
Definition random (E : Env) (w : t) : Q * t :=
  (Math_random E (randomCalls w), set_randomCalls (S (randomCalls w)) w).

Definition log (s : Signal) (w : t) : t := set_emitted (emitted w ++ [s]) w.

Definition defer (d : Deferred) (w : t) : t := set_pending (pending w ++ [d]) w.

(** The array currently bound to [Map._sprites]. *)
Definition sprites (w : t) : list nat := nth (MapData.sprites (map w)) (arrays w) [].

(** The contents of an array of the store. *)
Definition array (w : t) (a : nat) : list nat := nth a (arrays w) [].

End World.

(* ===================================================================== *)
(** ** utils/registry.ts *)
(* ===================================================================== *)

Module Registry.

(** [createTile(id, x, y)] followed by the tile's [load()]. *)
Definition createTile (E : Env) (id : string) (x y : Z) : option Tile.t :=
  match tileData E id with
  | Some j => Some {| Tile.id := id; Tile.position := (x, y); Tile.jsonData := j |}
  | None => None
  end.

Definition has (registry : list string) (id : string) : bool :=
  existsb (String.eqb id) registry.

(** [createHerbivore(id, x, y, group)]: [None] is [null]. *)
Definition createHerbivore (E : Env) (id : string) (x y : Q) (g : Z)
           (w : World.t) : option nat * World.t :=
  if has (herbivoreRegistry E) id then
    let (reg, w') :=
      World.alloc (fun reg => Sprite.construct reg Sprite.Herbivore id
                                               (spriteData E id) x y g) w in
    (Some reg, w')
  else (None, w).

Definition createCarnivore (E : Env) (id : string) (x y : Q) (g : Z)
           (w : World.t) : option nat * World.t :=
  if has (carnivoreRegistry E) id then
    let (reg, w') :=
      World.alloc (fun reg => Sprite.construct reg Sprite.Carnivore id
                                               (spriteData E id) x y g) w in
    (Some reg, w')
  else (None, w).

End Registry.

(* ===================================================================== *)
(** ** map.ts: queries, mutators and path planning *)
(* ===================================================================== *)

Module Map.

Import MapData.

(** [this._tiles[x][y]], [None] for [undefined]. *)
Definition getTileAt (m : MapData.t) (x y : Z) : option Tile.t :=
  if ((x <? 0) || (y <? 0))%Z then None
  else match nth_error (tiles m) (Z.to_nat x) with
       | Some column => nth_error column (Z.to_nat y)
       | None => None
       end.

(** [placeTile]: [this._tiles[x][y] = tile].  Every caller passes a tile
    whose position is a cell of the grid. *)
Definition placeTile (tl : Tile.t) (m : MapData.t) : MapData.t :=
  let (x, y) := Tile.position tl in
  if ((x <? 0) || (y <? 0))%Z then m
  else match nth_error (tiles m) (Z.to_nat x) with
       | Some column =>
           set_tiles (update (tiles m) (Z.to_nat x) (update column (Z.to_nat y) tl)) m
       | None => m
       end.

(** [addSprite]: [this._sprites.push(sprite)], in place. *)
Definition addSprite (reg : nat) (w : World.t) : World.t :=
  World.set_arrays
    (update (World.arrays w) (sprites (World.map w)) (World.sprites w ++ [reg])) w.

(** [removeSprite]: [this._sprites = this._sprites.filter(s => s !== sprite)],
    a new array; the old one is left as it is. *)
Definition removeSprite (reg : nat) (w : World.t) : World.t :=
  let filtered := filter (fun s => negb (s =? reg)%nat) (World.sprites w) in
  World.on_map (set_sprites (List.length (World.arrays w)))
               (World.set_arrays (World.arrays w ++ [filtered]) w).




(** [addGroup]: nothing happens when the group is registered already. *)
Definition addGroup (g : Z) (id : string) (m : MapData.t) : MapData.t :=
  if existsb (fun e => (fst e =? g)%Z) (groups m) then m
  else set_groups (groups m ++ [(g, id)]) m.

Definition count (p : nat -> bool) (l : list nat) : nat := List.length (filter p l).

(** [getHerbivoreCount], [getCarnivoreCount]: the sprites whose id is in
    the registry. *)
Definition getHerbivoreCount (E : Env) (w : World.t) : nat :=
  count (fun r => Registry.has (herbivoreRegistry E) (World.read w r Sprite.id ""%string))
        (World.sprites w).

Definition getCarnivoreCount (E : Env) (w : World.t) : nat :=
  count (fun r => Registry.has (carnivoreRegistry E) (World.read w r Sprite.id ""%string))
        (World.sprites w).



(** *** Visibility *)

(** The values a loop [for (let d = from; d <= vd; d++)] takes: [n] bounds
    the number of rounds, the loop's own test ends it. *)
Fixpoint loopValues (n : nat) (d vd : Q) : list Q :=
  match n with
  | O => []
  | S k => if Qle_bool d vd then d :: loopValues k (d + 1) vd else []
  end.

(** The number of rounds of [for (let d = -vd; d <= vd; d++)]. *)
Definition rounds (vd : Q) : nat := Z.to_nat (Qfloor (vd + vd) + 1).

Definition viewOffsets (vd : Q) : list Q := loopValues (rounds vd) (- vd) vd.

Definition inBounds (m : MapData.t) (c : cell) : bool :=
  ((0 <=? fst c) && (fst c <? width m) && (0 <=? snd c) && (snd c <? height m))%Z.

(** The cells [getVisibleTiles] reads, in the order of its two loops. *)
Definition visibleCells (m : MapData.t) (cellX cellY : Z) (vd : Q) : list cell :=
  flat_map
    (fun dx =>
       flat_map
         (fun dy =>
            let tileX := Math_floor (inject_Z cellX + dx) in
            let tileY := Math_floor (inject_Z cellY + dy) in
            if inBounds m (tileX, tileY) then [(tileX, tileY)] else [])
         (viewOffsets vd))
    (viewOffsets vd).

Definition tilesAt (m : MapData.t) (cells : list cell) : list Tile.t :=
  flat_map (fun c => match getTileAt m (fst c) (snd c) with
                     | Some tl => [tl]
                     | None => []
                     end) cells.

(** [getVisibleTiles(sprite)]. *)
Definition getVisibleTiles (w : World.t) (reg : nat) : list Tile.t :=
  let vd := World.read w reg Sprite.viewDistance 0 in
  let (x, y) := World.read w reg Sprite.position (0, 0) in
  tilesAt (World.map w) (visibleCells (World.map w) (Math_floor x) (Math_floor y) vd).

(** The box test of [getVisibleSprites]. *)
Definition inBox (cellX cellY : Z) (vd : Q) (p : pos) : bool :=
  Qle_bool (inject_Z cellX - vd) (fst p)
  && Qle_bool (fst p) (inject_Z cellX + vd)
  && Qle_bool (inject_Z cellY - vd) (snd p)
  && Qle_bool (snd p) (inject_Z cellY + vd).

(** [getVisibleSprites(sprite)]. *)
Definition getVisibleSprites (w : World.t) (reg : nat) : list nat :=
  let vd := World.read w reg Sprite.viewDistance 0 in
  let (x, y) := World.read w reg Sprite.position (0, 0) in
  filter (fun other =>
            if (other =? reg)%nat then false
            else inBox (Math_floor x) (Math_floor y) vd
                       (World.read w other Sprite.position (0, 0)))
         (World.sprites w).

(** [getSpritesAt(x, y)]. *)
Definition getSpritesAt (w : World.t) (x y : Q) : list nat :=
  filter (fun r =>
            let (spriteX, spriteY) := World.read w r Sprite.position (0, 0) in
            let spriteSize := World.read w r (fun s => Sprite.size (Sprite.jsonData s)) 0 / 100 in
            Qle_bool (x - spriteSize) spriteX && Qle_bool spriteX x
            && Qle_bool (y - spriteSize) spriteY && Qle_bool spriteY y)
         (World.sprites w).

(** *** Path planning *)

Definition isRoadKind (tl : Tile.t) : bool :=
  Tile.isKind Tile.Road tl || Tile.isKind Tile.Entrance tl || Tile.isKind Tile.Exit tl.

(** The steps [(dx, dy)] with [|dx| !== |dy|], in the order of the loops. *)
Definition steps4 : list cell := [(-1, 0); (0, -1); (0, 1); (1, 0)]%Z.

(** [neighbors(road)]. *)
Definition neighbors (m : MapData.t) (road : Tile.t) : list Tile.t :=
  let (x, y) := Tile.position road in
  flat_map
    (fun d =>
       let nx := (x + fst d)%Z in
       let ny := (y + snd d)%Z in
       if inBounds m (nx, ny) then
         match getTileAt m nx ny with
         | Some neighbor => if isRoadKind neighbor then [neighbor] else []
         | None => []
         end
       else [])
    steps4.

Definition visitedHas (c : cell) (visited : list cell) : bool :=
  existsb (cell_eqb c) visited.

(** [dfs(current, path, visited)], pushing onto [found] ([this._paths]).
    [visited] holds the positions of the tiles on the current branch: the
    position added on entry is deleted on exit, so every round of the loop
    sees the set the call started with plus [current].  A tile's position
    array is its own, so membership by identity is membership of the cell.
    The recursion is bounded by [fuel]; [None] is an exhausted bound. *)
Fixpoint dfs (fuel : nat) (m : MapData.t) (current : Tile.t) (path : list Tile.t)
         (visited : list cell) (found : list (list Tile.t))
  : option (list (list Tile.t)) :=
  match fuel with
  | O => None
  | S k =>
      if Tile.isKind Tile.Exit current then Some (found ++ [path ++ [current]])
      else
        let visited' := Tile.position current :: visited in
        fold_left
          (fun acc neighbor =>
             match acc with
             | None => None
             | Some found' =>
                 if visitedHas (Tile.position neighbor) visited' then Some found'
                 else dfs k m neighbor (path ++ [current]) visited' found'
             end)
          (neighbors m current) (Some found)
  end.

(** A bound no branch reaches: one more than the number of cells. *)
Definition dfsBound (m : MapData.t) : nat := S (Z.to_nat (width m * height m)).

(** The paths [planRoads] collects.  On a map whose grid is still empty
    the program throws; no path is collected. *)
Definition plannedPaths (m : MapData.t) : list (list Tile.t) :=
  match getTileAt m 0 0 with
  | Some entrance =>
      match dfs (dfsBound m) m entrance [] [] [] with
      | Some found => found
      | None => []
      end
  | None => []
  end.

(** [planRoads()]. *)
Definition planRoads (m : MapData.t) : bool * MapData.t :=
  let found := plannedPaths m in
  (negb (Nat.eqb (List.length found) 0), set_paths found m).

End Map.

(* ===================================================================== *)
(** ** utils/signal.ts with the listeners the constructors connect *)
(* ===================================================================== *)

Module Signals.

Import MapData.

(** [Sprite.updateVisibles(visibleTiles, visibleSprites)]. *)
Definition updateVisibles (reg : nat) (ts : list Tile.t) (ss : list nat)
           (w : World.t) : World.t :=
  World.modify reg (Sprite.set_visibles ts ss) w.

(** The key test of the cache lookup. *)
Definition cacheKeyMatches (x y : Z) (vd : Q) (v : CacheEntry) : bool :=
  (fst (position v) =? x)%Z && (snd (position v) =? y)%Z
  && Qeq_bool (viewDistance v) vd.

(** The listener of [updateVisiblesSignal] ([Map]'s constructor). *)
Definition onUpdateVisibles (reg : nat) (important : bool) (w : World.t) : World.t :=
  let (px, py) := World.read w reg Sprite.position (0, 0) in
  let x := Math_floor px in
  let y := Math_floor py in
  let vd := World.read w reg Sprite.viewDistance 0 in
  let cache := visiblesCache (World.map w) in
  let idx := findIndex (cacheKeyMatches x y vd) cache in
  let visibleTiles := Map.getVisibleTiles w reg in
  let visibleSprites := Map.getVisibleSprites w reg in
  let fresh :=
    {| time := 0; position := (x, y); viewDistance := vd;
       MapData.visibleTiles := visibleTiles;
       MapData.visibleSprites := visibleSprites |} in
  match idx, important with
  | Some i, false =>
      match nth_error cache i with
      | Some cached =>
          World.on_map (set_visiblesCache (update cache i (set_time 0 cached)))
            (updateVisibles reg (MapData.visibleTiles cached)
                            (MapData.visibleSprites cached) w)
      | None => w
      end
  | Some i, true =>
      updateVisibles reg visibleTiles visibleSprites
        (World.on_map (set_visiblesCache (splice1 i cache ++ [fresh])) w)
  | None, _ =>
      updateVisibles reg visibleTiles visibleSprites
        (World.on_map (set_visiblesCache (cache ++ [fresh])) w)
  end.

Definition emit_updateVisibles (reg : nat) (important : bool) (w : World.t) : World.t :=
  onUpdateVisibles reg important (World.log (UpdateVisibles reg important) w).

(** [animalDeadSignal] and [shooterDeadSignal]: the map drops the sprite. *)
Definition emit_animalDead (reg : nat) (w : World.t) : World.t :=
  Map.removeSprite reg (World.log (AnimalDead reg) w).

Definition emit_shooterDead (reg : nat) (w : World.t) : World.t :=
  Map.removeSprite reg (World.log (ShooterDead reg) w).

(** [tourFinishedSignal]: the jeep leaves the map and waits again. *)
Definition emit_tourFinished (jeep : nat) (w : World.t) : World.t :=
  World.on_map
    (fun m => set_totalVisitorCount (totalVisitorCount m + 4)%Z
                                    (set_waitingJeeps (waitingJeeps m ++ [jeep]) m))
    (Map.removeSprite jeep (World.log (TourFinished jeep) w)).

(** [tileEatenSignal]: the listener creates the fallback tile and awaits
    its load; placing it is left for later. *)
Definition emit_tileEaten (E : Env) (tl : Tile.t) (w : World.t) : World.t :=
  let w := World.log (TileEaten tl) w in
  match Registry.createTile E (Tile.fallbackTile (Tile.jsonData tl))
                            (fst (Tile.position tl)) (snd (Tile.position tl)) with
  | Some fallbackTile => World.defer (PlaceTile fallbackTile) w
  | None => w
  end.



(** [bountySignal]. *)
Definition emit_bounty (bounty : Q) (w : World.t) : World.t :=
  World.on_model (fun m => ModelData.set_balance (ModelData.balance m + bounty) m)
                 (World.log (Bounty bounty) w).

Definition emit_losing (w : World.t) : World.t := World.log Losing w.

End Signals.

(* ===================================================================== *)
(** ** sprites/sprite.ts *)
(* ===================================================================== *)

Module SpriteMethods.

(** The result of [computeBounds]; [None] when there is no tile, where
    the program's bounds are [Infinity] and [-Infinity]. *)
Record Bounds : Type := { minX : Q; minY : Q; maxX : Q; maxY : Q }.

Definition minimum (l : list Q) : option Q :=
  match l with
  | [] => None
  | h :: t => Some (fold_left Math_min t h)
  end.

Definition maximum (l : list Q) : option Q :=
  match l with
  | [] => None
  | h :: t => Some (fold_left Math_max t h)
  end.

Definition tileX (tl : Tile.t) : Q := inject_Z (fst (Tile.position tl)).
Definition tileY (tl : Tile.t) : Q := inject_Z (snd (Tile.position tl)).

(** [computeBounds(tiles)]. *)
Definition computeBounds (tls : list Tile.t) : option Bounds :=
  match minimum (List.map tileX tls), minimum (List.map tileY tls),
        maximum (List.map tileX tls), maximum (List.map tileY tls) with
  | Some a, Some b, Some c, Some d =>
      Some {| minX := a; minY := b; maxX := c; maxY := d |}
  | _, _, _, _ => None
  end.

(** [Math.max(lo, Math.min(hi, v))]. *)
Definition clamp (lo hi v : Q) : Q := Math_max lo (Math_min hi v).

(** The target position at this moment, [None] for [undefined]. *)
Definition target (w : World.t) (reg : nat) : option pos :=
  match World.read w reg Sprite.pathTo None with
  | Some r => Some (World.resolve w r)
  | None => None
  end.

(** [isAtDestination(threshold)]. *)
Definition isAtDestination (threshold : Q) (w : World.t) (reg : nat) : bool :=
  match target w reg with
  | Some (tx, ty) =>
      let (x, y) := World.read w reg Sprite.position (0, 0) in
      Qle_bool (Math_abs (x - tx)) threshold && Qle_bool (Math_abs (y - ty)) threshold
  | None => false
  end.

(** The tile the sprite stands on, as [move] finds it. *)
Definition currentTile (s : Sprite.t) : option Tile.t :=
  find (fun tl =>
          Qlt_bool (Math_abs (tileX tl - fst (Sprite.position s))) (1 # 2)
          && Qlt_bool (Math_abs (tileY tl - snd (Sprite.position s))) (1 # 2))
       (Sprite.visibleTiles s).

(** The divisor of a step: 30 on an obstacle, 10 elsewhere. *)
Definition stepDivisor (current : option Tile.t) : Q :=
  match current with
  | Some tl => if Tile.isObstacle (Tile.jsonData tl) then 30 else 10
  | None => 10
  end.

(** [move(dt, minX, minY, maxX, maxY)], the bounds being those its callers
    computed beforehand.  When the step does not reach the target and
    there are no bounds, the program stores a non-finite position; the
    model leaves the position as it is. *)
Definition move (E : Env) (dt : Q) (bounds : option Bounds) (reg : nat)
           (w : World.t) : World.t :=
  match target w reg with
  | None => w
  | Some (tx, ty) =>
      let (x, y) := World.read w reg Sprite.position (0, 0) in
      let dx := tx - x in
      let dy := ty - y in
      let dist := Math_sqrt E (dx * dx + dy * dy) in
      let speed := World.read w reg (fun s => Sprite.speed (Sprite.jsonData s)) 0 in
      if Qlt_bool 0 dist then
        let vx := dx / dist * speed in
        let vy := dy / dist * speed in
        let w := World.modify reg (Sprite.set_velocity (vx, vy)) w in
        let current := World.read w reg currentTile None in
        let w :=
          if Tile.same_opt current (World.read w reg Sprite.lastTile None) then w
          else Signals.emit_updateVisibles reg false
                 (World.modify reg (Sprite.set_lastTile current) w) in
        let moveX := vx * dt / stepDivisor current in
        let moveY := vy * dt / stepDivisor current in
        if Qle_bool (Math_abs dx) (Math_abs moveX)
           && Qle_bool (Math_abs dy) (Math_abs moveY)
        then
          match target w reg with
          | Some p => World.modify reg (Sprite.set_position p) w
          | None => w
          end
        else
          match bounds with
          | Some b =>
              World.modify reg
                (Sprite.set_position (clamp (minX b) (maxX b) (x + moveX),
                                      clamp (minY b) (maxY b) (y + moveY))) w
          | None => w
          end
      else w
  end.

(** [updateState()]: is the sprite's cell a hill among the visible tiles? *)
Definition updateState (reg : nat) (w : World.t) : World.t :=
  World.modify reg
    (fun s =>
       let tX := Math_floor (fst (Sprite.position s)) in
       let tY := Math_floor (snd (Sprite.position s)) in
       Sprite.set_isOnHill
         (existsb (fun tl => cell_eqb (Tile.position tl) (tX, tY)
                             && Tile.isKind Tile.Hill tl)
                  (Sprite.visibleTiles s)) s)
    w.

(** [load()], once the definition data is there: a visibility request. *)
Definition load (reg : nat) (w : World.t) : World.t :=
  Signals.emit_updateVisibles reg false w.

End SpriteMethods.

(* ===================================================================== *)
(** ** sprites/animal.ts, herbivore.ts, carnivore.ts *)
(* ===================================================================== *)

Module Animal.

Import SpriteMethods.

(** Reading and writing the animal fields of the object. *)
Definition field (A : Type) (f : Sprite.AnimalData -> A) (d : A)
           (w : World.t) (reg : nat) : A :=
  World.read w reg (fun s => f (Sprite.animal s)) d.

Definition change (f : Sprite.AnimalData -> Sprite.AnimalData) (reg : nat)
           (w : World.t) : World.t :=
  World.modify reg (fun s => Sprite.set_animal (f (Sprite.animal s)) s) w.

Definition foodLevel := field Sprite.foodLevel 0.
Definition hydrationLevel := field Sprite.hydrationLevel 0.
Definition isBeingCaptured := field Sprite.isCaptured false.
Definition age := field Sprite.age 0.
Definition group := field Sprite.group 0%Z.

Definition isHungry (w : World.t) (reg : nat) : bool := Qlt_bool (foodLevel w reg) 85.
Definition isThirsty (w : World.t) (reg : nat) : bool := Qlt_bool (hydrationLevel w reg) 80.
Definition isAdult (w : World.t) (reg : nat) : bool := Qle_bool 18 (age w reg).

Definition instanceofAnimal (w : World.t) (reg : nat) : bool :=
  World.read w reg (fun s => Sprite.isAnimal (Sprite.cls s)) false.

Definition instanceofHerbivore (w : World.t) (reg : nat) : bool :=
  World.read w reg (fun s => match Sprite.cls s with
                             | Sprite.Herbivore => true
                             | _ => false
                             end) false.

Definition instanceofCarnivore (w : World.t) (reg : nat) : bool :=
  World.read w reg (fun s => match Sprite.cls s with
                             | Sprite.Carnivore => true
                             | _ => false
                             end) false.

(** [interpolateRange(from, to, t)]. *)
Definition interpolateRange (from to t : Q) : Q := from + (to - from) * t.

(** [updateHungerAndThirst(dt)]: two draws, hydration first. *)
Definition updateHungerAndThirst (E : Env) (dt : Q) (reg : nat) (w : World.t) : World.t :=
  let normalizedAge := Math_min (age w reg / 30) 1 in
  let hydrationDuration := interpolateRange 180 30 normalizedAge in
  let (r1, w) := World.random E w in
  let hydrationRandomFactor := (85 # 100) + r1 * (3 # 10) in
  let hydrationFinalDuration := hydrationDuration * hydrationRandomFactor in
  let hydrationRate := 3 / hydrationFinalDuration in
  let w := change (fun a => Sprite.with_hydrationLevel
                              (Math_max 0 (Sprite.hydrationLevel a - hydrationRate * dt)) a)
                  reg w in
  let foodDuration := interpolateRange 200 60 (normalizedAge * (7 # 10)) in
  let (r2, w) := World.random E w in
  let foodRandomFactor := (9 # 10) + r2 * (2 # 10) in
  let foodFinalDuration := foodDuration * foodRandomFactor in
  let foodRate := 2 / foodFinalDuration in
  change (fun a => Sprite.with_foodLevel
                     (Math_max 0 (Sprite.foodLevel a - foodRate * dt)) a)
         reg w.

(** [isResting(dt)]: the answer and the world with the timer run down. *)
Definition isResting (dt : Q) (reg : nat) (w : World.t) : bool * World.t :=
  let restingTime := World.read w reg Sprite.restingTime 0 in
  if Qlt_bool 0 restingTime then
    (true, World.modify reg (Sprite.set_restingTime (Math_max 0 (restingTime - dt))) w)
  else (false, w).

(** Identity of position arrays. *)
Definition sameRef (a b : Sprite.PosRef) : bool :=
  match a, b with
  | Sprite.Fixed p, Sprite.Fixed q => pos_eqb p q
  | Sprite.PositionOf r, Sprite.PositionOf s => (r =? s)%nat
  | _, _ => false
  end.

(** The memory loops of [updateWaterMemory] and of the herbivore's
    [updateFoodMemory]: every visible tile of the kind is remembered, and a
    remembered position that is visible without being of the kind is
    forgotten. *)
Definition remember (kind : Tile.t -> bool) (w : World.t) (visible : list Tile.t)
           (seen : list Sprite.PosRef) : list Sprite.PosRef :=
  let seen' :=
    fold_left (fun acc tl =>
                 if kind tl
                 then set_add sameRef (Sprite.Fixed (pos_of_cell (Tile.position tl))) acc
                 else acc)
              visible seen in
  let near := List.map (fun tl => pos_of_cell (Tile.position tl)) (filter kind visible) in
  filter (fun p =>
            let v := World.resolve w p in
            let isNear := existsb (fun tl => pos_eqb (pos_of_cell (Tile.position tl)) v)
                                  visible in
            negb (negb (existsb (pos_eqb v) near) && isNear))
         seen'.

(** [updateWaterMemory()]. *)
Definition updateWaterMemory (reg : nat) (w : World.t) : World.t :=
  change (fun a =>
            Sprite.with_seenWaterPositions
              (remember (fun tl => Tile.isWater (Tile.jsonData tl)) w
                        (World.read w reg Sprite.visibleTiles [])
                        (Sprite.seenWaterPositions a)) a)
         reg w.

(** [Herbivore.updateFoodMemory()]. *)
Definition updateFoodMemory_herbivore (reg : nat) (w : World.t) : World.t :=
  change (fun a =>
            Sprite.with_seenFoodPositions
              (remember (fun tl => Tile.isEdible (Tile.jsonData tl)) w
                        (World.read w reg Sprite.visibleTiles [])
                        (Sprite.seenFoodPositions a)) a)
         reg w.

(** [Carnivore.isInViewDistance(position)]. *)
Definition isInViewDistance (w : World.t) (reg : nat) (p : pos) : bool :=
  let (x, y) := World.read w reg Sprite.position (0, 0) in
  let vd := World.read w reg Sprite.viewDistance 0 in
  Qle_bool (Math_abs (x - fst p)) vd && Qle_bool (Math_abs (y - snd p)) vd.

(** [Carnivore.updateFoodMemory()]: the herbivores seen are kept by
    registration number with their live position; one whose position is in
    view with no visible sprite standing there is forgotten; the food
    positions are the positions that remain. *)
Definition updateFoodMemory_carnivore (reg : nat) (w : World.t) : World.t :=
  let visible := World.read w reg Sprite.visibleSprites [] in
  let seen :=
    fold_left (fun acc s => if instanceofHerbivore w s
                            then set_add Nat.eqb s acc else acc)
              visible (field Sprite.seenHerbivores [] w reg) in
  let kept :=
    filter (fun id =>
              let p := World.read w id Sprite.position (0, 0) in
              negb (isInViewDistance w reg p
                    && negb (existsb (fun s => pos_eqb (World.read w s Sprite.position (0, 0)) p)
                                     visible)))
           seen in
  change (fun a => Sprite.with_seenFoodPositions (List.map Sprite.PositionOf kept)
                     (Sprite.with_seenHerbivores kept a))
         reg w.

(** [updateMemory()], by class. *)
Definition updateMemory (reg : nat) (w : World.t) : World.t :=
  let w := updateWaterMemory reg w in
  if instanceofCarnivore w reg then updateFoodMemory_carnivore reg w
  else updateFoodMemory_herbivore reg w.

(** [getNearTiles()]. *)
Definition getNearTiles (w : World.t) (reg : nat) : list Tile.t :=
  let (x, y) := World.read w reg Sprite.position (0, 0) in
  filter (fun tl => Qle_bool (Math_abs (tileX tl - x)) (1 # 2)
                    && Qlt_bool (Math_abs (tileY tl - y)) (1 # 2))
         (World.read w reg Sprite.visibleTiles []).

(** [Herbivore.fillFoodLevel()]: every edible tile nearby is eaten. *)
Definition fillFoodLevel_herbivore (E : Env) (reg : nat) (w : World.t) : World.t :=
  fold_left (fun w tl =>
               if Tile.isEdible (Tile.jsonData tl)
               then Signals.emit_tileEaten E tl (change (Sprite.with_foodLevel 100) reg w)
               else w)
            (getNearTiles w reg) w.

(** [Carnivore.fillFoodLevel()]: every visible herbivore within half a
    unit that is not being captured is eaten. *)
Definition fillFoodLevel_carnivore (reg : nat) (w : World.t) : World.t :=
  fold_left (fun w s =>
               let (x, y) := World.read w reg Sprite.position (0, 0) in
               let (sx, sy) := World.read w s Sprite.position (0, 0) in
               if instanceofHerbivore w s
                  && Qle_bool (Math_abs (sx - x)) (1 # 2)
                  && Qle_bool (Math_abs (sy - y)) (1 # 2)
                  && negb (isBeingCaptured w s)
               then Signals.emit_animalDead s (change (Sprite.with_foodLevel 100) reg w)
               else w)
            (World.read w reg Sprite.visibleSprites []) w.

Definition fillFoodLevel (E : Env) (reg : nat) (w : World.t) : World.t :=
  if instanceofCarnivore w reg then fillFoodLevel_carnivore reg w
  else fillFoodLevel_herbivore E reg w.

(** [findClosest(positions)]: the first position at the least distance. *)
Definition findClosest (w : World.t) (reg : nat) (positions : list Sprite.PosRef)
  : option Sprite.PosRef :=
  let (x, y) := World.read w reg Sprite.position (0, 0) in
  fst (fold_left
         (fun (acc : option Sprite.PosRef * option Q) p =>
            let dx := fst (World.resolve w p) - x in
            let dy := snd (World.resolve w p) - y in
            let d := dx * dx + dy * dy in
            match snd acc with
            | Some bestDist => if Qlt_bool d bestDist then (Some p, Some d) else acc
            | None => (Some p, Some d)
            end)
         positions (None, None)).

(** [chooseNeedTarget()]. *)
Definition chooseNeedTarget (reg : nat) (w : World.t) : option Sprite.PosRef * World.t :=
  let step1 :=
    if isThirsty w reg
       && negb (match field Sprite.targetNeed Sprite.NeedNone w reg with
                | Sprite.NeedFood => true
                | _ => false
                end)
    then (findClosest w reg (field Sprite.seenWaterPositions [] w reg),
          change (Sprite.with_targetNeed Sprite.NeedDrink) reg w)
    else (None, w) in
  let (needPosition, w) := step1 in
  let notDrink := negb (match field Sprite.targetNeed Sprite.NeedNone w reg with
                        | Sprite.NeedDrink => true
                        | _ => false
                        end) in
  let noPosition := match needPosition with Some _ => false | None => true end in
  if (isHungry w reg && notDrink) || (isHungry w reg && noPosition)
  then (findClosest w reg (field Sprite.seenFoodPositions [] w reg),
        change (Sprite.with_targetNeed Sprite.NeedFood) reg w)
  else (needPosition, w).

(** The target of a random tile: a draw and the tile's position, clamped.
    A draw outside [0, 1) indexes no tile, where the program throws. *)
Definition randomTileTarget (E : Env) (b : Bounds) (nonObstacleTiles : list Tile.t)
           (w : World.t) : option pos * World.t :=
  let (r, w) := World.random E w in
  let randomTileIndex :=
    Math_floor (r * inject_Z (Z.of_nat (List.length nonObstacleTiles))) in
  match (if (randomTileIndex <? 0)%Z then None
         else nth_error nonObstacleTiles (Z.to_nat randomTileIndex)) with
  | Some randomTile =>
      (Some (clamp (minX b) (maxX b) (tileX randomTile),
             clamp (minY b) (maxY b) (tileY randomTile)), w)
  | None => (None, w)
  end.

(** The loop of at most ten attempts around the centre of the group. *)
Fixpoint groupTarget (E : Env) (attempts : nat) (b : Bounds) (avg : pos)
         (visible : list Tile.t) (w : World.t) : option pos * World.t :=
  match attempts with
  | O => (None, w)
  | S k =>
      let (r1, w) := World.random E w in
      let radius := 1 + r1 * (5 # 2) in
      let (r2, w) := World.random E w in
      let angle := r2 * 2 * Math_PI E in
      let targetX := clamp (minX b) (maxX b) (fst avg + Math_cos E angle * radius) in
      let targetY := clamp (minY b) (maxY b) (snd avg + Math_sin E angle * radius) in
      let tX := Math_floor targetX in
      let tY := Math_floor targetY in
      match find (fun tl => cell_eqb (Tile.position tl) (tX, tY)) visible with
      | Some tileAtPosition =>
          if Tile.isObstacle (Tile.jsonData tileAtPosition)
          then groupTarget E k b avg visible w
          else (Some (targetX, targetY), w)
      | None => (Some (targetX, targetY), w)
      end
  end.

(** [chooseRandomTarget(bounds)]. *)
Definition chooseRandomTarget (E : Env) (bounds : option Bounds) (reg : nat)
           (w : World.t) : option pos * World.t :=
  let visible := World.read w reg Sprite.visibleTiles [] in
  let nonObstacleTiles :=
    filter (fun tl => negb (Tile.isObstacle (Tile.jsonData tl))) visible in
  match nonObstacleTiles, bounds with
  | [], _ => (None, w)
  | _, None => (None, w)
  | _ :: _, Some b =>
      let groupmates :=
        filter (fun s => instanceofAnimal w s && (group w s =? group w reg)%Z)
               (World.read w reg Sprite.visibleSprites []) in
      match groupmates with
      | [] => randomTileTarget E b nonObstacleTiles w
      | _ :: _ =>
          let n := inject_Z (Z.of_nat (List.length groupmates)) in
          let sumX := sumQ (List.map (fun s => fst (World.read w s Sprite.position (0, 0)))
                                     groupmates) in
          let sumY := sumQ (List.map (fun s => snd (World.read w s Sprite.position (0, 0)))
                                     groupmates) in
          match groupTarget E 10 b (sumX / n, sumY / n) visible w with
          | (Some p, w) => (Some p, w)
          | (None, w) => randomTileTarget E b nonObstacleTiles w
          end
      end
  end.

Definition setPathTo (p : option pos) (reg : nat) (w : World.t) : World.t :=
  World.modify reg
    (Sprite.set_pathTo (match p with
                        | Some q => Some (Sprite.Fixed q)
                        | None => None
                        end)) w.

(** [handleArrival()]. *)
Definition handleArrival (E : Env) (reg : nat) (w : World.t) : World.t :=
  match World.read w reg Sprite.pathTo None with
  | None => w
  | Some _ =>
      let w := World.modify reg (Sprite.set_velocity (0, 0)) w in
      let w := World.modify reg (Sprite.set_pathTo None) w in
      let w := change (Sprite.with_isWandering false) reg w in
      let w := change (Sprite.with_targetNeed Sprite.NeedNone) reg w in
      if isBeingCaptured w reg then Signals.emit_animalDead reg w
      else
        let (r, w) := World.random E w in
        let w := World.modify reg (Sprite.set_restingTime (50 + r * 16)) w in
        let w :=
          fold_left (fun w tl =>
                       if Tile.isWater (Tile.jsonData tl)
                       then change (Sprite.with_hydrationLevel 100) reg w
                       else w)
                    (getNearTiles w reg) w in
        fillFoodLevel E reg w
  end.

(** [decideAction(dt)]. *)
Definition decideAction (E : Env) (dt : Q) (reg : nat) (w : World.t) : World.t :=
  let bounds := computeBounds (World.read w reg Sprite.visibleTiles []) in
  let (target, w) := chooseNeedTarget reg w in
  let noPath w := match World.read w reg Sprite.pathTo None with
                  | Some _ => false
                  | None => true
                  end in
  let w :=
    if (isHungry w reg || isThirsty w reg) && negb (isBeingCaptured w reg) then
      match target with
      | Some t =>
          change (Sprite.with_isWandering false) reg
                 (World.modify reg (Sprite.set_pathTo (Some t)) w)
      | None =>
          if negb (field Sprite.isWandering false w reg) then
            let (p, w) := chooseRandomTarget E bounds reg w in
            change (Sprite.with_targetNeed Sprite.NeedNone) reg
                   (change (Sprite.with_isWandering true) reg (setPathTo p reg w))
          else change (Sprite.with_targetNeed Sprite.NeedNone) reg w
      end
    else if noPath w && negb (isBeingCaptured w reg) then
      let (p, w) := chooseRandomTarget E bounds reg w in
      setPathTo p reg w
    else w in
  if negb (noPath w) && isAtDestination (1 # 2) w reg then handleArrival E reg w
  else move E dt bounds reg w.

(** [act(dt)]. *)
Definition act (E : Env) (reg : nat) (dt : Q) (w : World.t) : World.t :=
  let w := updateState reg w in
  let w := change (fun a => Sprite.with_age (Sprite.age a + dt / 1440) a) reg w in
  let w := if isBeingCaptured w reg then w else updateHungerAndThirst E dt reg w in
  if Qle_bool (foodLevel w reg) 0 || Qle_bool (hydrationLevel w reg) 0 then
    Signals.emit_animalDead reg w
  else
    let w :=
      if isHungry w reg || isThirsty w reg then
        World.modify reg (Sprite.set_restingTime 0)
                     (updateMemory reg (Signals.emit_updateVisibles reg false w))
      else w in
    let (resting, w) := isResting dt reg w in
    if resting then w else decideAction E dt reg w.

(** [getShotBy(shooter)]: the world and whether the shot killed. *)
Definition getShotBy (E : Env) (reg : nat) (w : World.t) : bool * World.t :=
  let w := World.modify reg (Sprite.set_velocity (0, 0)) w in
  let w := World.modify reg (Sprite.set_pathTo None) w in
  let (chance, w) := World.random E w in
  if Qlt_bool chance (8 # 10) then (true, Signals.emit_animalDead reg w)
  else (false, w).

(** [capture(pathTo)]; the argument is the poacher's exit array. *)
Definition capture (pathTo : Sprite.PosRef) (reg : nat) (w : World.t) : World.t :=
  let w := change (Sprite.with_isCaptured true) reg w in
  let w := change (Sprite.with_foodLevel 100) reg w in
  let w := change (Sprite.with_hydrationLevel 100) reg w in
  let w := World.modify reg (Sprite.set_restingTime 0) w in
  World.modify reg (Sprite.set_pathTo (Some pathTo)) w.

End Animal.

(* ===================================================================== *)
(** ** visitor.ts *)
(* ===================================================================== *)

Module Visitor.

Import VisitorData.

(** One of the two partial ratings of [get rating]. *)
Definition partialRating (seen wants : Z) : Z :=
  if (wants =? 0)%Z then 5%Z
  else Z.min 5 (Z.max 1 (Math_floor (inject_Z seen / inject_Z wants * 5))).

(** [get rating]. *)
Definition rating (w : World.t) (v : t) : Z :=
  let seenCarnivores :=
    Z.of_nat (List.length (filter (Animal.instanceofCarnivore w) (seenAnimals v))) in
  let seenHerbivores :=
    Z.of_nat (List.length (filter (Animal.instanceofHerbivore w) (seenAnimals v))) in
  let carnivoreRating := partialRating seenCarnivores (wantsToSeeCarnivores v) in
  let herbivoreRating := partialRating seenHerbivores (wantsToSeeHerbivores v) in
  ((carnivoreRating + herbivoreRating) / 2)%Z.

(** [willVisit(entryFee, rating)]; a [NaN] rating compares false. *)
Definition willVisit (entryFee : Q) (rating : option Q) (v : t) : bool :=
  match rating with
  | Some r => Qle_bool entryFee (willingToPay v) && Qle_bool (inject_Z (wantsRating v)) r
  | None => false
  end.

(** [lookAt(animals)]. *)
Definition lookAt (animals : list nat) (v : t) : t :=
  {| wantsRating := wantsRating v; willingToPay := willingToPay v;
     wantsToSeeCarnivores := wantsToSeeCarnivores v;
     wantsToSeeHerbivores := wantsToSeeHerbivores v;
     seenAnimals := fold_left (fun acc a => set_add Nat.eqb a acc) animals (seenAnimals v) |}.

End Visitor.

(* ===================================================================== *)
(** ** sprites/jeep.ts *)
(* ===================================================================== *)

Module Jeep.

Definition id : string := "safari:jeep".

Definition field (A : Type) (f : Sprite.JeepData -> A) (d : A)
           (w : World.t) (reg : nat) : A :=
  World.read w reg (fun s => f (Sprite.jeep s)) d.

Definition passengers := field Sprite.passengers [].
Definition path := field Sprite.path [].

Definition setPassengers (ps : list VisitorData.t) (reg : nat) (w : World.t) : World.t :=
  World.modify reg
    (fun s => Sprite.set_jeep {| Sprite.passengers := ps;
                                 Sprite.path := Sprite.path (Sprite.jeep s) |} s) w.

Definition setPath (p : list Tile.t) (reg : nat) (w : World.t) : World.t :=
  World.modify reg
    (fun s => Sprite.set_jeep {| Sprite.passengers := Sprite.passengers (Sprite.jeep s);
                                 Sprite.path := p |} s) w.


(** [get pathTo]: a copy of the position of the next tile of the path. *)
Definition pathTo (w : World.t) (reg : nat) : option pos :=
  match path w reg with
  | tl :: _ => Some (pos_of_cell (Tile.position tl))
  | [] => None
  end.




(** [act(dt)]. *)
Definition act (E : Env) (reg : nat) (dt : Q) (w : World.t) : World.t :=
  let w :=
    match pathTo w reg with
    | Some (tx, ty) =>
        let (x, y) := World.read w reg Sprite.position (0, 0) in
        let dx := tx - x in
        let dy := ty - y in
        let dist := Math_sqrt E (dx * dx + dy * dy) in
        if Qlt_bool 0 dist then
          let speed := World.read w reg (fun s => Sprite.speed (Sprite.jsonData s)) 0 in
          let vx := dx / dist * speed in
          let vy := dy / dist * speed in
          let w := World.modify reg (Sprite.set_velocity (vx, vy)) w in
          let moveX := vx * dt / 10 in
          let moveY := vy * dt / 10 in
          if Qle_bool (Math_abs dx) (Math_abs moveX)
             && Qle_bool (Math_abs dy) (Math_abs moveY)
          then
            let w := World.modify reg (Sprite.set_position (tx, ty)) w in
            let w := setPath (tl (path w reg)) reg w in
            Signals.emit_updateVisibles reg false w
          else World.modify reg (Sprite.set_position (x + moveX, y + moveY)) w
        else setPath (tl (path w reg)) reg w
    | None =>
        let w := setPassengers [] reg w in
        let w := World.modify reg (Sprite.set_position (0, 0)) w in
        let w := World.modify reg (Sprite.set_velocity (0, 0)) w in
        Signals.emit_tourFinished reg w
    end in
  let animals := filter (Animal.instanceofAnimal w) (World.read w reg Sprite.visibleSprites []) in
  setPassengers (List.map (Visitor.lookAt animals) (passengers w reg)) reg w.

End Jeep.

(* ===================================================================== *)
(** ** map.ts: the tick *)
(* ===================================================================== *)

Module Tick.

Import MapData.


Section WithAct.

Variable E : Env.

(** [Sprite.act] is abstract: the tick calls whatever the class of the
    sprite defines. *)
Variable act : nat -> Q -> World.t -> World.t.
















(** Running a deferred continuation, after the tick. *)
Definition resume (d : Deferred) (w : World.t) : World.t :=
  match d with
  | PlaceTile tl => World.on_map (Map.placeTile tl) w
  | LoadThenAddSprite reg => Map.addSprite reg (SpriteMethods.load reg w)
  end.

End WithAct.

End Tick.

(* ===================================================================== *)
(** ** safariModel.ts *)
(* ===================================================================== *)

Module SafariModel.

Import ModelData.



(** [set isOpen(value)]: opening asks [planRoads], which plans anew. *)
Definition setIsOpen (value : bool) (w : World.t) : World.t :=
  if value then
    let (connected, m) := Map.planRoads (World.map w) in
    let w := World.set_map m w in
    if connected then World.on_model (set_isOpen true) w else w
  else World.on_model (set_isOpen false) w.



(** [checkLosing()]. *)
Definition checkLosing (E : Env) (w : World.t) : World.t :=
  if Qle_bool (balance (World.model w)) 0
     && (Map.getHerbivoreCount E w + Map.getCarnivoreCount E w =? 0)%nat
  then Signals.emit_losing (World.on_model (set_balance 0) w)
  else w.

(** [buy(item)]: the failure indicator and the world. *)
Definition buy (buyPrice : Q) (w : World.t) : bool * World.t :=
  if Qlt_bool (balance (World.model w)) buyPrice then (false, w)
  else (true, World.on_model (fun m => set_balance (balance m - buyPrice) m) w).



(** The [do ... while] loop drawing a group id no group has yet; [rounds]
    bounds the number of draws, [None] is an exhausted bound. *)
Fixpoint drawGroupId (E : Env) (rounds : nat) (w : World.t) : option (Z * World.t) :=
  match rounds with
  | O => None
  | S k =>
      let (r, w) := World.random E w in
      let groupID := Math_floor (r * 1000000) in
      if existsb (fun e => (fst e =? groupID)%Z) (MapData.groups (World.map w))
      then drawGroupId E k w
      else Some (groupID, w)
  end.

(** What [buyHerbivore] and [buyCarnivore] do with the animal once it is
    created and loaded. *)
Definition buyAnimal (E : Env) (rounds : nat) (id : string) (animal : nat)
           (w : World.t) : option World.t :=
  let w := SpriteMethods.load animal w in
  let (bought, w) :=
    buy (World.read w animal (fun s => Sprite.buyPrice (Sprite.jsonData s)) 0) w in
  if bought then
    let visibleSprites := Map.getVisibleSprites w animal in
    let sameIdSprite :=
      find (fun s => Animal.instanceofAnimal w s
                     && String.eqb (World.read w s Sprite.id ""%string) id)
           visibleSprites in
    let chosen :=
      match sameIdSprite with
      | Some s => Some (Animal.group w s, w)
      | None => drawGroupId E rounds w
      end in
    match chosen with
    | Some (groupID, w) =>
        let w := Animal.change (Sprite.with_group groupID) animal w in
        let w := World.on_map (Map.addGroup groupID id) w in
        Some (Map.addSprite animal w)
    | None => None
    end
  else Some w.

(** [buyCarnivore(id, x, y)]. *)
Definition buyCarnivore (E : Env) (rounds : nat) (id : string) (x y : Q)
           (w : World.t) : option World.t :=
  match Registry.createCarnivore E id x y 0 w with
  | (None, w) => Some w
  | (Some animal, w) => buyAnimal E rounds id animal w
  end.

(** [buyHerbivore(id, x, y)]. *)
Definition buyHerbivore (E : Env) (rounds : nat) (id : string) (x y : Q)
           (w : World.t) : option World.t :=
  match Registry.createHerbivore E id x y 0 w with
  | (None, w) => Some w
  | (Some animal, w) => buyAnimal E rounds id animal w
  end.



End SafariModel.


(* ===================================================================== *)
(** ** The vocabulary of the specification *)
(* ===================================================================== *)

Module Spec.

(** The axis-aligned square of half-width [vd] around the cell
    [(cellX, cellY)]: Chebyshev distance at most [vd]. *)
Definition inSquare (cellX cellY : Z) (vd : Q) (p : pos) : Prop :=
  inject_Z cellX - vd <= fst p /\ fst p <= inject_Z cellX + vd
  /\ inject_Z cellY - vd <= snd p /\ snd p <= inject_Z cellY + vd.

(** A cell of the grid. *)
Definition onMap (m : MapData.t) (c : cell) : Prop :=
  (0 <= fst c < MapData.width m)%Z /\ (0 <= snd c < MapData.height m)%Z.


(** The key under which a sprite asks for its visibles. *)
Definition keyOf (w : World.t) (reg : nat) : cell * Q :=
  ((Math_floor (fst (World.read w reg Sprite.position (0, 0))),
    Math_floor (snd (World.read w reg Sprite.position (0, 0)))),
   World.read w reg Sprite.viewDistance 0).



(** *** Roads *)

Definition tileAt (m : MapData.t) (c : cell) : option Tile.t :=
  Map.getTileAt m (fst c) (snd c).

(** The grid is loaded: the map is not empty and every cell of it holds a
    tile that records the cell as its position. *)
Definition loadedGrid (m : MapData.t) : Prop :=
  (0 < MapData.width m)%Z /\ (0 < MapData.height m)%Z
  /\ forall c, onMap m c -> exists tl, tileAt m c = Some tl /\ Tile.position tl = c.

(** The cells of the map, and the check that decides [loadedGrid]. *)
Definition allCells (m : MapData.t) : list cell :=
  list_prod (List.map Z.of_nat (seq 0 (Z.to_nat (MapData.width m))))
            (List.map Z.of_nat (seq 0 (Z.to_nat (MapData.height m)))).

Definition checkGrid (m : MapData.t) : bool :=
  (0 <? MapData.width m)%Z && (0 <? MapData.height m)%Z
  && forallb (fun c => match tileAt m c with
                       | Some tl => cell_eqb (Tile.position tl) c
                       | None => false
                       end) (allCells m).

(** Two cells next to each other horizontally or vertically. *)
Definition adjacent (a b : cell) : Prop :=
  (Z.abs (fst a - fst b) + Z.abs (snd a - snd b) = 1)%Z.

Fixpoint chain (p : list cell) : Prop :=
  match p with
  | a :: (b :: _) as rest => adjacent a b /\ chain rest
  | _ => True
  end.

(** A cell occupied by a road-kind tile (road, entrance or exit), and a
    cell occupied by an exit. *)
Definition roadCell (m : MapData.t) (c : cell) : Prop :=
  exists tl, tileAt m c = Some tl /\ Map.isRoadKind tl = true.

Definition exitCell (m : MapData.t) (c : cell) : Prop :=
  exists tl, tileAt m c = Some tl /\ Tile.isKind Tile.Exit tl = true.

(** A simple path from the entrance cell (the origin) to an exit, through
    cells of the map occupied by road-kind tiles, each step to a cell next
    to the last one horizontally or vertically. *)
Definition roadPath (m : MapData.t) (p : list cell) : Prop :=
  hd_error p = Some (0, 0)%Z
  /\ NoDup p /\ chain p
  /\ Forall (onMap m) p
  /\ Forall (roadCell m) (tl p)
  /\ exitCell m (last p (0, 0)%Z).

(** The state of a call [dfs(current, path, visited)]: the cells of [path]
    followed by the cell of [current] are a simple chain from the origin
    through road-kind tiles, and [current] is the tile of its cell. *)
Definition branch (m : MapData.t) (path : list Tile.t) (current : Tile.t) : Prop :=
  let p := List.map Tile.position (path ++ [current]) in
  hd_error p = Some (0, 0)%Z
  /\ NoDup p /\ chain p
  /\ Forall (onMap m) p
  /\ Forall (roadCell m) (tl p)
  /\ tileAt m (Tile.position current) = Some current.

(** From the cell [c] an exit is reached by a simple chain of road-kind
    cells that avoids the cells of [avoid]. *)
Definition reaches (m : MapData.t) (avoid : list cell) (c : cell) : Prop :=
  exists s,
    NoDup (c :: s) /\ chain (c :: s)
    /\ (forall x, In x (c :: s) -> ~ In x avoid)
    /\ Forall (onMap m) s
    /\ Forall (roadCell m) s
    /\ exitCell m (last (c :: s) (0, 0)%Z).

(** The only exit of the map is in the corner opposite to the origin. *)
Definition exitInCorner (m : MapData.t) : Prop :=
  forall c, exitCell m c -> c = (MapData.width m - 1, MapData.height m - 1)%Z.



(** The map with its visibility cache emptied: what two maps that differ
    in their cache only have in common. *)
Definition mapButCache (m : MapData.t) : MapData.t := MapData.set_visiblesCache [] m.


(** The world in which [Animal.act] looks at the needs of the animal: its
    state is refreshed, it has aged and, unless it is captured, its food
    and hydration have decayed. *)
Definition decayed (E : Env) (reg : nat) (dt : Q) (w : World.t) : World.t :=
  let w := SpriteMethods.updateState reg w in
  let w := Animal.change (fun a => Sprite.with_age (Sprite.age a + dt / 1440) a) reg w in
  if Animal.isBeingCaptured w reg then w else Animal.updateHungerAndThirst E dt reg w.

(** The animal has arrived: it has a target and is within half a unit of
    it on both axes. *)
Definition arrived (w : World.t) (reg : nat) : Prop :=
  SpriteMethods.isAtDestination (1 # 2) w reg = true.

(** From [w] to [w'] the animal fields of the sprite [reg] are kept, no
    random number is drawn and nothing but visibility requests of [reg] is
    emitted. *)
Definition keepsAnimal (reg : nat) (w w' : World.t) : Prop :=
  World.randomCalls w' = World.randomCalls w
  /\ (exists l, World.emitted w' = World.emitted w ++ l
                /\ Forall (fun sg => exists imp, sg = UpdateVisibles reg imp) l)
  /\ (forall s, World.deref w reg = Some s ->
                exists s', World.deref w' reg = Some s'
                           /\ Sprite.animal s' = Sprite.animal s).

(** *** What an [act] may do to the map *)

(** The store of arrays grows: no array is lost and every array keeps
    what it held, in place, new elements coming at its end only. *)
Definition storeGrows (w w' : World.t) : Prop :=
  (List.length (World.arrays w) <= List.length (World.arrays w'))%nat
  /\ forall a, (a < List.length (World.arrays w))%nat ->
                exists pushed, World.array w' a = World.array w a ++ pushed.

(** The discipline of the listeners and of the sprite classes: from [w]
    to [w'] the arrays of sprites change through [addSprite] and
    [removeSprite] only, the queue of visitors and the planned paths are
    untouched, jeeps join the waiting queue at its end, no jeep is given a
    passenger, and no object disappears. *)
Definition actFrame (w w' : World.t) : Prop :=
  storeGrows w w'
  /\ MapData.waitingVisitors (World.map w') = MapData.waitingVisitors (World.map w)
  /\ MapData.paths (World.map w') = MapData.paths (World.map w)
  /\ (exists back, MapData.waitingJeeps (World.map w')
                   = MapData.waitingJeeps (World.map w) ++ back)
  /\ (forall j, Jeep.passengers w j = [] -> Jeep.passengers w' j = [])
  /\ (List.length (World.heap w) <= List.length (World.heap w'))%nat
  /\ ((MapData.sprites (World.map w) < List.length (World.arrays w))%nat ->
      (MapData.sprites (World.map w') < List.length (World.arrays w'))%nat).

(** What the parts of [tick] around the loop over the sprites do: timers,
    draws, deferred work, new objects and the model; the roster, the
    queues, the paths and the objects there are stay as they are. *)
Definition housekeeping (w w' : World.t) : Prop :=
  World.arrays w' = World.arrays w
  /\ MapData.sprites (World.map w') = MapData.sprites (World.map w)
  /\ MapData.waitingJeeps (World.map w') = MapData.waitingJeeps (World.map w)
  /\ MapData.waitingVisitors (World.map w') = MapData.waitingVisitors (World.map w)
  /\ MapData.paths (World.map w') = MapData.paths (World.map w)
  /\ (forall r s, World.deref w r = Some s -> World.deref w' r = Some s).


End Spec.

(* ===================================================================== *)
(** ** Concrete environments and worlds *)
(* ===================================================================== *)

Module Example.

(** A [Math.sqrt] exact on the squares of the multiples of 10^-6. *)
Definition sqrtApprox (q : Q) : Q :=
  Z.sqrt (Qnum q * Zpos (Qden q) * 1000000000000) # (Qden q * 1000000).

Definition cosApprox (x : Q) : Q := 1 - x * x / 2 + x * x * x * x / 24.
Definition sinApprox (x : Q) : Q := x - x * x * x / 6 + x * x * x * x * x / 120.

(** A stream of draws in [0, 1). *)
Definition draws (n : nat) : Q := inject_Z (Z.of_nat ((n * 37 + 11) mod 100)) / 100.

Definition tileJson (price : Q) (obstacle edible water : bool) : Tile.Json :=
  {| Tile.buyPrice := price; Tile.isObstacle := obstacle; Tile.isEdible := edible;
     Tile.isWater := water; Tile.isAlwaysVisible := false;
     Tile.fallbackTile := "safari:sand" |}.

Definition tileTable : list (string * Tile.Json) :=
  [ ("safari:sand", tileJson 0 false false false);
    ("safari:road", tileJson 100 false false false);
    ("safari:entrance", tileJson 0 false false false);
    ("safari:exit", tileJson 0 false false false);
    ("safari:hill", tileJson 300 false false false);
    ("safari:grass", tileJson 50 false true false);
    ("safari:pond", tileJson 200 true false true);
    ("safari:acacia", tileJson 150 true true false);
    ("safari:oak", tileJson 150 true false false) ]%string.

Definition lookupTile (id : string) : option Tile.Json :=
  match find (fun e => String.eqb (fst e) id) tileTable with
  | Some e => Some (snd e)
  | None => None
  end.

Definition spriteJson (price viewDistance speed salary : Q) : Sprite.Json :=
  {| Sprite.buyPrice := price; Sprite.baseViewDistance := viewDistance;
     Sprite.speed := speed; Sprite.size := 1; Sprite.chipPrice := 50;
     Sprite.salary := salary |}.

Definition lookupSprite (id : string) : Sprite.Json :=
  if String.eqb id "safari:zebra" then spriteJson 100 10 10 0
  else if String.eqb id "safari:lion" then spriteJson 500 5 12 0
  else if String.eqb id "safari:jeep" then spriteJson 1000 10 10 0
  else if String.eqb id "safari:ranger" then spriteJson 800 10 10 40
  else spriteJson 100 10 10 0.

Definition env : Env :=
  {| Math_sqrt := sqrtApprox; Math_cos := cosApprox; Math_sin := sinApprox;
     Math_PI := 355 # 113; Math_random := draws;
     tileData := lookupTile; spriteData := lookupSprite;
     herbivoreRegistry := ["safari:zebra"%string];
     carnivoreRegistry := ["safari:lion"%string] |}.

Definition tile (id : string) (x y : Z) : Tile.t :=
  {| Tile.id := id; Tile.position := (x, y);
     Tile.jsonData := match lookupTile id with
                      | Some j => j
                      | None => tileJson 0 false false false
                      end |}.

(** The grid [loadMap] leaves when it generates no pond: sand everywhere,
    the entrance at the origin and the exit in the opposite corner. *)
Definition loadedTile (W H x y : Z) : Tile.t :=
  if ((x =? W - 1) && (y =? H - 1))%Z then tile Tile.Exit x y
  else if ((x =? 0) && (y =? 0))%Z then tile Tile.Entrance x y
  else tile Tile.Sand x y.

Definition loadedGrid (W H : nat) : list (list Tile.t) :=
  List.map (fun x => List.map (fun y => loadedTile (Z.of_nat W) (Z.of_nat H)
                                                   (Z.of_nat x) (Z.of_nat y))
                              (seq 0 H))
           (seq 0 W).

Definition normalGoal : Goal.t :=
  {| Goal.balance := 20000; Goal.herbivores := 10; Goal.carnivores := 5;
     Goal.visitors := 50; Goal.forDays := 3 |}.

(** The world of a new [SafariModel] whose map of [W] by [H] tiles is
    loaded without animals. *)
Definition newWorld (W H : nat) : World.t :=
  {| World.heap := [];
     World.arrays := [[]];
     World.map :=
       {| MapData.width := Z.of_nat W; MapData.height := Z.of_nat H;
          MapData.tiles := loadedGrid W H;
          MapData.sprites := 0%nat; MapData.groups := [];
          MapData.waitingJeeps := []; MapData.waitingVisitors := [];
          MapData.paths := []; MapData.totalVisitorCount := 0;
          MapData.plantTimer := 0; MapData.poacherTimer := 0;
          MapData.visiblesCache := [] |};
     World.model :=
       {| ModelData.goal := normalGoal; ModelData.rating := Some 3;
          ModelData.speed := 1; ModelData.balance := 10000;
          ModelData.entryFee := 1000; ModelData.isOpen := false;
          ModelData.time := 0; ModelData.timer := 0;
          ModelData.daysGoalMet := 0; ModelData.lastGoalCheckDay := -1 |};
     World.randomCalls := 0%nat;
     World.pending := [];
     World.emitted := [] |}.

(** Putting tiles on the map. *)
Definition place (tls : list Tile.t) (w : World.t) : World.t :=
  fold_left (fun w tl => World.on_map (Map.placeTile tl) w) tls w.

(** Buying an animal that is created, loaded and added to the map. *)
Definition withHerbivore (x y : Q) (w : World.t) : World.t :=
  match SafariModel.buyHerbivore env 5 "safari:zebra" x y w with
  | Some w' => w'
  | None => w
  end.

Definition withCarnivore (x y : Q) (w : World.t) : World.t :=
  match SafariModel.buyCarnivore env 5 "safari:lion" x y w with
  | Some w' => w'
  | None => w
  end.

(** A lion on a hill at (10, 10) of a map of 20 by 20: its view distance is
    7.5 once it has looked around. *)
Definition lionOnHill : World.t :=
  SpriteMethods.updateState 0
    (withCarnivore 10 10 (place [tile Tile.Hill 10 10] (newWorld 20 20))).

(** A zebra at (3, 3) of a map of 8 by 8; its view distance is 10. *)
Definition zebraWorld : World.t := withHerbivore 3 3 (newWorld 8 8).





(** The object behind a reference of a concrete world. *)
Definition object (w : World.t) (reg : nat) : Sprite.t :=
  World.read w reg (fun s => s)
             (Sprite.construct reg Sprite.Jeep Jeep.id (lookupSprite Jeep.id) 0 0 0).

(** The zebra, hungry (food level 50) and with 2 units of rest left. *)
Definition hungryResting : World.t :=
  World.modify 0 (Sprite.set_restingTime 2)
               (Animal.change (Sprite.with_foodLevel 50) 0 zebraWorld).

(** The zebra, sated and with 2 units of rest left. *)
Definition satedResting : World.t :=
  World.modify 0 (Sprite.set_restingTime 2) zebraWorld.

(** The zebra, captured by a poacher who carries it to the exit. *)
Definition capturedZebra : World.t :=
  Animal.capture (Sprite.Fixed (7, 7)) 0 zebraWorld.

(** A park of 3 by 3 with a road from the entrance along the first row
    and down the last column to the exit. *)
Definition roadWorld : World.t :=
  place [tile Tile.Road 1 0; tile Tile.Road 2 0; tile Tile.Road 2 1] (newWorld 3 3).









End Example.

Unset Implicit Arguments.

(* ===================================================================== *)
(** ** Facts about the primitives *)
(* ===================================================================== *)

Section Primitives.

Lemma Qfloor_unique (x : Q) (z : Z) :
  inject_Z z <= x -> x < inject_Z (z + 1) -> Qfloor x = z.
Proof.
  intros Hlo Hhi.
  assert (H1 : (z <= Qfloor x)%Z).
  { rewrite <- (Qfloor_Z z). now apply Qfloor_resp_le. }
  assert (H2 : (Qfloor x < z + 1)%Z).
  { rewrite Zlt_Qlt. eapply Qle_lt_trans; [apply Qfloor_le | exact Hhi]. }
  lia.
Qed.

Lemma Qfloor_shift (c : Z) (d : Q) : Qfloor (inject_Z c + d) = (c + Qfloor d)%Z.
Proof.
  apply Qfloor_unique.
  - rewrite inject_Z_plus. apply Qplus_le_r. apply Qfloor_le.
  - replace (c + Qfloor d + 1)%Z with (c + (Qfloor d + 1))%Z by lia.
    rewrite inject_Z_plus. apply Qplus_lt_r. apply Qlt_floor.
Qed.

Lemma Qlt_bool_iff (a b : Q) : Qlt_bool a b = true <-> a < b.
Proof.
  unfold Qlt_bool. rewrite negb_true_iff.
  split; intro H.
  - apply Qnot_le_lt. intro Hle. apply Qle_bool_iff in Hle. congruence.
  - destruct (Qle_bool b a) eqn:E; [|reflexivity].
    apply Qle_bool_iff in E. exfalso. exact (Qlt_not_le _ _ H E).
Qed.

Lemma Qlt_bool_false_iff (a b : Q) : Qlt_bool a b = false <-> b <= a.
Proof.
  unfold Qlt_bool. rewrite negb_false_iff. apply Qle_bool_iff.
Qed.

Lemma Qle_bool_false_iff (a b : Q) : Qle_bool a b = false <-> b < a.
Proof.
  split; intro H.
  - apply Qnot_le_lt. intro Hle. apply Qle_bool_iff in Hle. congruence.
  - destruct (Qle_bool a b) eqn:E; [|reflexivity].
    apply Qle_bool_iff in E. exfalso. exact (Qlt_not_le _ _ H E).
Qed.

Lemma nth_error_update_eq (A : Type) (l : list A) (i : nat) (x : A) :
  (i < List.length l)%nat -> nth_error (update l i x) i = Some x.
Proof.
  revert i; induction l as [|h t IH]; intros [|i] H; simpl in *; try lia; auto.
  apply IH. lia.
Qed.

Lemma nth_error_update_neq (A : Type) (l : list A) (i j : nat) (x : A) :
  i <> j -> nth_error (update l i x) j = nth_error l j.
Proof.
  revert i j; induction l as [|h t IH]; intros [|i] [|j] H; simpl; auto; try congruence.
Qed.

Lemma length_update (A : Type) (l : list A) (i : nat) (x : A) :
  List.length (update l i x) = List.length l.
Proof.
  revert i; induction l as [|h t IH]; intros [|i]; simpl; auto.
Qed.

Lemma nth_update_eq (A : Type) (l : list A) (i : nat) (x d : A) :
  (i < List.length l)%nat -> nth i (update l i x) d = x.
Proof.
  revert i; induction l as [|h t IH]; intros [|i] H; simpl in *; try lia; auto.
  apply IH. lia.
Qed.

Lemma nth_update_neq (A : Type) (l : list A) (i j : nat) (x d : A) :
  i <> j -> nth j (update l i x) d = nth j l d.
Proof.
  revert i j; induction l as [|h t IH]; intros [|i] [|j] H; simpl; auto; try congruence.
Qed.

Lemma update_out_of_range (A : Type) (l : list A) (i : nat) (x : A) :
  (List.length l <= i)%nat -> update l i x = l.
Proof.
  revert i; induction l as [|h t IH]; intros [|i] H; simpl in *; auto; try lia.
  f_equal. apply IH. lia.
Qed.

End Primitives.

(* ===================================================================== *)
(** ** Visibility queries *)
(* ===================================================================== *)

Section Visibility.

Import MapData.

(** The rounds of a view loop all pass its test ... *)
Lemma rounds_pass (vd : Q) (i : nat) :
  (i < Map.rounds vd)%nat -> - vd + inject_Z (Z.of_nat i) <= vd.
Proof.
  unfold Map.rounds. intro H.
  assert (Hi : (Z.of_nat i <= Qfloor (vd + vd))%Z) by lia.
  rewrite Zle_Qle in Hi.
  pose proof (Qfloor_le (vd + vd)) as Hf.
  lra.
Qed.

(** ... and the test fails right after them: the bound ends no loop early. *)
Lemma rounds_exact (vd : Q) :
  Qle_bool (- vd + inject_Z (Z.of_nat (Map.rounds vd))) vd = false.
Proof.
  apply Qle_bool_false_iff. unfold Map.rounds.
  pose proof (Qlt_floor (vd + vd)) as Hf.
  destruct (Z.le_gt_cases 0 (Qfloor (vd + vd) + 1)) as [Hpos|Hneg].
  - rewrite Z2Nat.id by exact Hpos. lra.
  - assert (E : Z.to_nat (Qfloor (vd + vd) + 1) = 0%nat) by lia.
    rewrite E. change (inject_Z (Z.of_nat 0)) with 0.
    assert (Hq : inject_Z (Qfloor (vd + vd) + 1) < 0).
    { change 0 with (inject_Z 0). rewrite <- Zlt_Qlt. lia. }
    lra.
Qed.

Lemma loopValues_floor (c : Z) (n : nat) :
  forall d vd,
    (forall i, (i < n)%nat -> d + inject_Z (Z.of_nat i) <= vd) ->
    List.map (fun q => Math_floor (inject_Z c + q)) (Map.loopValues n d vd)
    = List.map (fun i => (c + Qfloor d + Z.of_nat i)%Z) (seq 0 n).
Proof.
  induction n as [|n IH]; intros d vd H; [reflexivity|].
  cbn [Map.loopValues seq].
  assert (H0 : Qle_bool d vd = true).
  { apply Qle_bool_iff. specialize (H 0%nat ltac:(lia)).
    change (inject_Z (Z.of_nat 0)) with 0 in H. lra. }
  rewrite H0. cbn [List.map]. f_equal.
  - unfold Math_floor. rewrite Qfloor_shift. lia.
  - rewrite IH.
    + rewrite <- seq_shift, map_map.
      apply map_ext. intro i.
      assert (E : Qfloor (d + 1) = (1 + Qfloor d)%Z).
      { rewrite <- Qfloor_shift. apply Qfloor_comp.
        change (inject_Z 1) with 1. ring. }
      rewrite E. lia.
    + intros i Hi. specialize (H (S i) ltac:(lia)).
      rewrite Nat2Z.inj_succ in H. unfold Z.succ in H. rewrite inject_Z_plus in H.
      change (inject_Z 1) with 1 in H. lra.
Qed.

Lemma viewOffsets_floor (c : Z) (vd : Q) :
  List.map (fun q => Math_floor (inject_Z c + q)) (Map.viewOffsets vd)
  = List.map (fun i => (c + Qfloor (- vd) + Z.of_nat i)%Z) (seq 0 (Map.rounds vd)).
Proof.
  unfold Map.viewOffsets. apply loopValues_floor. intros i Hi. now apply rounds_pass.
Qed.

Lemma nested_loops_filter_prod (p : cell -> bool) (f g : Q -> Z) (l2 : list Q) :
  forall l1,
    flat_map (fun a => flat_map (fun b => if p (f a, g b) then [(f a, g b)] else []) l2) l1
    = filter p (list_prod (List.map f l1) (List.map g l2)).
Proof.
  induction l1 as [|a l1 IH]; [reflexivity|].
  cbn [flat_map List.map list_prod]. rewrite filter_app, IH. f_equal.
  clear IH. induction l2 as [|b l2 IH2]; [reflexivity|].
  cbn [flat_map List.map filter]. rewrite IH2.
  destruct (p (f a, g b)); reflexivity.
Qed.

Lemma NoDup_list_prod (A B : Type) (l : list A) (l' : list B) :
  NoDup l -> NoDup l' -> NoDup (list_prod l l').
Proof.
  intros Hl Hl'. induction Hl as [|a l Ha Hl IH]; [constructor|].
  cbn [list_prod]. apply NoDup_app.
  - apply NoDup_map_NoDup_ForallPairs; [|exact Hl'].
    intros x y _ _ E. now inversion E.
  - exact IH.
  - intros [x y] Hin Hin'. apply in_map_iff in Hin as [b [E _]]. inversion E; subst.
    apply in_prod_iff in Hin' as [Hx _]. contradiction.
Qed.

(** The cells [getVisibleTiles] reads, for any view distance: the cells of
    the map whose coordinates are [rounds vd] consecutive integers from
    [cell + floor(-vd)] on. *)
Lemma visibleCells_filter_prod (m : MapData.t) (cx cy : Z) (vd : Q) :
  Map.visibleCells m cx cy vd
  = filter (Map.inBounds m)
      (list_prod
         (List.map (fun i => (cx + Qfloor (- vd) + Z.of_nat i)%Z) (seq 0 (Map.rounds vd)))
         (List.map (fun i => (cy + Qfloor (- vd) + Z.of_nat i)%Z) (seq 0 (Map.rounds vd)))).
Proof.
  unfold Map.visibleCells.
  rewrite (nested_loops_filter_prod (Map.inBounds m)
             (fun q => Math_floor (inject_Z cx + q))
             (fun q => Math_floor (inject_Z cy + q))).
  now rewrite !viewOffsets_floor.
Qed.

Lemma visibleCells_NoDup (m : MapData.t) (cx cy : Z) (vd : Q) :
  NoDup (Map.visibleCells m cx cy vd).
Proof.
  rewrite visibleCells_filter_prod. apply NoDup_filter. apply NoDup_list_prod;
    (apply NoDup_map_NoDup_ForallPairs; [|apply seq_NoDup]; intros x y _ _ E; lia).
Qed.

Lemma inBounds_iff (m : MapData.t) (c : cell) :
  Map.inBounds m c = true <-> Spec.onMap m c.
Proof.
  unfold Map.inBounds, Spec.onMap.
  rewrite !andb_true_iff, !Z.leb_le, !Z.ltb_lt. tauto.
Qed.

(** With an integer view distance [n] the coordinates run over
    [cell - n .. cell + n]. *)
Lemma integer_range (c n x : Z) (vd : Q) :
  vd == inject_Z n ->
  In x (List.map (fun i => (c + Qfloor (- vd) + Z.of_nat i)%Z) (seq 0 (Map.rounds vd)))
  <-> (c - n <= x <= c + n)%Z.
Proof.
  intro E.
  assert (Ef : Qfloor (- vd) = (- n)%Z).
  { rewrite <- (Qfloor_Z (- n)). apply Qfloor_comp. rewrite E, inject_Z_opp. reflexivity. }
  assert (Er : Map.rounds vd = Z.to_nat (n + n + 1)).
  { unfold Map.rounds. f_equal. f_equal.
    rewrite <- (Qfloor_Z (n + n)). apply Qfloor_comp. rewrite E, inject_Z_plus. reflexivity. }
  rewrite Ef, Er, in_map_iff. split.
  - intros [i [Hx Hi]]. apply in_seq in Hi. lia.
  - intro H. exists (Z.to_nat (x - (c - n))). split; [lia|]. apply in_seq. lia.
Qed.

Lemma visibleCells_integer (m : MapData.t) (cx cy n : Z) (vd : Q) (c : cell) :
  vd == inject_Z n ->
  In c (Map.visibleCells m cx cy vd)
  <-> Spec.onMap m c /\ Spec.inSquare cx cy vd (pos_of_cell c).
Proof.
  intro E. destruct c as [x y].
  rewrite visibleCells_filter_prod, filter_In, inBounds_iff.
  unfold cell. rewrite in_prod_iff, !(fun c x => integer_range c n x vd E).
  unfold Spec.inSquare, pos_of_cell. cbn [fst snd]. rewrite !E.
  unfold Qminus. rewrite <- !inject_Z_opp, <- !inject_Z_plus, <- !Zle_Qle.
  unfold Spec.onMap. cbn [fst snd]. lia.
Qed.

Lemma tilesAt_In (m : MapData.t) (cells : list cell) (tl : Tile.t) :
  In tl (Map.tilesAt m cells)
  <-> exists c, In c cells /\ Map.getTileAt m (fst c) (snd c) = Some tl.
Proof.
  unfold Map.tilesAt. rewrite in_flat_map. split.
  - intros [c [Hc Hin]]. exists c. split; [exact Hc|].
    destruct (Map.getTileAt m (fst c) (snd c)); simpl in Hin; [|contradiction].
    destruct Hin as [->|[]]. reflexivity.
  - intros [c [Hc Ht]]. exists c. split; [exact Hc|]. rewrite Ht. now left.
Qed.

Lemma inBox_iff (cx cy : Z) (vd : Q) (p : pos) :
  Map.inBox cx cy vd p = true <-> Spec.inSquare cx cy vd p.
Proof.
  unfold Map.inBox, Spec.inSquare. rewrite !andb_true_iff, !Qle_bool_iff. tauto.
Qed.

Lemma getVisibleSprites_In (w : World.t) (a b : nat) :
  In b (Map.getVisibleSprites w a)
  <-> In b (World.sprites w) /\ b <> a
      /\ Spec.inSquare (Math_floor (fst (World.read w a Sprite.position (0, 0))))
                       (Math_floor (snd (World.read w a Sprite.position (0, 0))))
                       (World.read w a Sprite.viewDistance 0)
                       (World.read w b Sprite.position (0, 0)).
Proof.
  unfold Map.getVisibleSprites.
  destruct (World.read w a Sprite.position (0, 0)) as [x y]. cbn [fst snd].
  rewrite filter_In. destruct (Nat.eqb_spec b a) as [->|Hne].
  - split; [intros [_ H]; discriminate | intros [_ [H _]]; congruence].
  - rewrite inBox_iff. tauto.
Qed.

End Visibility.

(** C3, as amended.  For every agent [a] and every state of the map,
    [getVisibleSprites(a)] never contains [a], and an agent [b] is in it
    exactly when [b] is on the map, is not [a], and its position lies in
    the axis-aligned square of half-width [a.viewDistance] around [a]'s
    floored position.  When [a.viewDistance] is an integer,
    [getVisibleTiles(a)] reads every cell once and returns exactly the
    tiles of the cells of the map that lie in that square. *)
Theorem C3_visible_sprites_and_tiles (w : World.t) (a : nat) :
  let cellX := Math_floor (fst (World.read w a Sprite.position (0, 0))) in
  let cellY := Math_floor (snd (World.read w a Sprite.position (0, 0))) in
  let vd := World.read w a Sprite.viewDistance 0 in
  ~ In a (Map.getVisibleSprites w a)
  /\ (forall b,
         In b (Map.getVisibleSprites w a)
         <-> In b (World.sprites w) /\ b <> a
             /\ Spec.inSquare cellX cellY vd (World.read w b Sprite.position (0, 0)))
  /\ (forall n : Z,
         vd == inject_Z n ->
         NoDup (Map.visibleCells (World.map w) cellX cellY vd)
         /\ (forall c,
                In c (Map.visibleCells (World.map w) cellX cellY vd)
                <-> Spec.onMap (World.map w) c
                    /\ Spec.inSquare cellX cellY vd (pos_of_cell c))
         /\ (forall tl,
                In tl (Map.getVisibleTiles w a)
                <-> exists c, Spec.onMap (World.map w) c
                              /\ Spec.inSquare cellX cellY vd (pos_of_cell c)
                              /\ Map.getTileAt (World.map w) (fst c) (snd c) = Some tl)).
Proof.
  intros cellX cellY vd. split; [|split].
  - intro H. apply getVisibleSprites_In in H. destruct H as [_ [H _]]. now apply H.
  - intro b. apply getVisibleSprites_In.
  - intros n E. split; [apply visibleCells_NoDup|]. split.
    + intro c. now apply visibleCells_integer with (n := n).
    + intro tl. unfold Map.getVisibleTiles. fold vd.
      destruct (World.read w a Sprite.position (0, 0)) as [x y] eqn:Ep.
      subst cellX cellY. cbn [fst snd] in *.
      rewrite tilesAt_In. split.
      * intros [c [Hc Ht]]. exists c.
        apply (visibleCells_integer _ _ _ n _ _ E) in Hc. tauto.
      * intros [c [Hm [Hs Ht]]]. exists c. split; [|exact Ht].
        apply (visibleCells_integer _ _ _ n _ _ E). tauto.
Qed.

(** The theorem at a zebra with view distance 10. *)
Lemma C3_visible_sprites_and_tiles_witness :
  World.read Example.zebraWorld 0 Sprite.viewDistance 0 == inject_Z 10
  /\ NoDup (Map.visibleCells (World.map Example.zebraWorld) 3 3 10).
Proof.
  split; [reflexivity|].
  destruct (C3_visible_sprites_and_tiles Example.zebraWorld 0) as [_ [_ H]].
  destruct (H 10%Z) as [Hd _]; [reflexivity|]. exact Hd.
Defined.

(** C3 as stated fails for a fractional view distance: the lion on the
    hill at (10, 10) sees with distance 7.5, and [getVisibleTiles] returns
    the tile of the cell (2, 10), 8 cells away, which is outside the
    square of half-width 7.5. *)
Lemma C3_counterexample :
  World.read Example.lionOnHill 0 Sprite.position (0, 0) = (10, 10)
  /\ World.read Example.lionOnHill 0 Sprite.viewDistance 0 = 15 # 2
  /\ In (Example.tile Tile.Sand 2 10) (Map.getVisibleTiles Example.lionOnHill 0)
  /\ Map.getTileAt (World.map Example.lionOnHill) 2 10 = Some (Example.tile Tile.Sand 2 10)
  /\ ~ Spec.inSquare 10 10 (15 # 2) (pos_of_cell (2, 10)%Z).
Proof.
  split; [reflexivity|]. split; [reflexivity|]. split; [|split; [reflexivity|]].
  - vm_compute. repeat (first [left; reflexivity | right]).
  - intros [H _]. vm_compute in H. apply H. reflexivity.
Qed.

(* ===================================================================== *)
(** ** The store *)
(* ===================================================================== *)

Section Store.

Lemma modify_map (r : nat) (f : Sprite.t -> Sprite.t) (w : World.t) :
  World.map (World.modify r f w) = World.map w.
Proof. unfold World.modify. destruct (World.deref w r); reflexivity. Qed.

Lemma modify_model (r : nat) (f : Sprite.t -> Sprite.t) (w : World.t) :
  World.model (World.modify r f w) = World.model w.
Proof. unfold World.modify. destruct (World.deref w r); reflexivity. Qed.

Lemma modify_arrays (r : nat) (f : Sprite.t -> Sprite.t) (w : World.t) :
  World.arrays (World.modify r f w) = World.arrays w.
Proof. unfold World.modify. destruct (World.deref w r); reflexivity. Qed.

Lemma modify_randomCalls (r : nat) (f : Sprite.t -> Sprite.t) (w : World.t) :
  World.randomCalls (World.modify r f w) = World.randomCalls w.
Proof. unfold World.modify. destruct (World.deref w r); reflexivity. Qed.

Lemma modify_pending (r : nat) (f : Sprite.t -> Sprite.t) (w : World.t) :
  World.pending (World.modify r f w) = World.pending w.
Proof. unfold World.modify. destruct (World.deref w r); reflexivity. Qed.

Lemma modify_emitted (r : nat) (f : Sprite.t -> Sprite.t) (w : World.t) :
  World.emitted (World.modify r f w) = World.emitted w.
Proof. unfold World.modify. destruct (World.deref w r); reflexivity. Qed.


Lemma deref_Some_lt (w : World.t) (r : nat) (s : Sprite.t) :
  World.deref w r = Some s -> (r < List.length (World.heap w))%nat.
Proof. unfold World.deref. intro H. apply nth_error_Some. congruence. Qed.

Lemma deref_modify_same (r : nat) (f : Sprite.t -> Sprite.t) (w : World.t) (s : Sprite.t) :
  World.deref w r = Some s -> World.deref (World.modify r f w) r = Some (f s).
Proof.
  intro H. unfold World.modify. rewrite H. unfold World.deref. cbn.
  apply nth_error_update_eq. eapply deref_Some_lt; eauto.
Qed.

Lemma deref_modify_other (r r' : nat) (f : Sprite.t -> Sprite.t) (w : World.t) :
  r <> r' -> World.deref (World.modify r f w) r' = World.deref w r'.
Proof.
  intro H. unfold World.modify. destruct (World.deref w r) eqn:E; [|reflexivity].
  unfold World.deref. cbn. now apply nth_error_update_neq.
Qed.

Lemma read_modify_same (A : Type) (g : Sprite.t -> A) (d : A) (r : nat)
      (f : Sprite.t -> Sprite.t) (w : World.t) (s : Sprite.t) :
  World.deref w r = Some s -> World.read (World.modify r f w) r g d = g (f s).
Proof. intro H. unfold World.read. now rewrite (deref_modify_same r f w s H). Qed.

Lemma read_modify_other (A : Type) (g : Sprite.t -> A) (d : A) (r r' : nat)
      (f : Sprite.t -> Sprite.t) (w : World.t) :
  r <> r' -> World.read (World.modify r f w) r' g d = World.read w r' g d.
Proof. intro H. unfold World.read. now rewrite deref_modify_other. Qed.

Lemma read_Some (A : Type) (g : Sprite.t -> A) (d : A) (r : nat) (w : World.t) (s : Sprite.t) :
  World.deref w r = Some s -> World.read w r g d = g s.
Proof. intro H. unfold World.read. now rewrite H. Qed.

(** A field the change leaves alone reads the same. *)
Lemma read_modify_frame (A : Type) (g : Sprite.t -> A) (d : A) (r r' : nat)
      (f : Sprite.t -> Sprite.t) (w : World.t) :
  (forall s, g (f s) = g s) ->
  World.read (World.modify r f w) r' g d = World.read w r' g d.
Proof.
  intro H. destruct (Nat.eq_dec r r') as [->|Hne].
  - unfold World.read. destruct (World.deref w r') eqn:E.
    + rewrite (deref_modify_same r' f w _ E). apply H.
    + unfold World.modify. now rewrite E, E.
  - now apply read_modify_other.
Qed.

Lemma heap_length_modify (r : nat) (f : Sprite.t -> Sprite.t) (w : World.t) :
  List.length (World.heap (World.modify r f w)) = List.length (World.heap w).
Proof.
  unfold World.modify. destruct (World.deref w r); [|reflexivity].
  cbn. apply length_update.
Qed.

End Store.

(* ===================================================================== *)
(** ** The visibility cache *)
(* ===================================================================== *)

Section Cache.

Import MapData.


















Lemma read_log (A : Type) (g : Sprite.t -> A) (d : A) (r : nat) (sg : Signal) (w : World.t) :
  World.read (World.log sg w) r g d = World.read w r g d.
Proof. reflexivity. Qed.

(** The listener of the visibility signal, with the key spelled out. *)
Lemma emit_updateVisibles_unfold (reg : nat) (important : bool) (w : World.t) :
  Signals.emit_updateVisibles reg important w
  = let w0 := World.log (UpdateVisibles reg important) w in
    let key := Spec.keyOf w reg in
    let cache := visiblesCache (World.map w) in
    let fresh :=
      {| time := 0; position := fst key; viewDistance := snd key;
         visibleTiles := Map.getVisibleTiles w reg;
         visibleSprites := Map.getVisibleSprites w reg |} in
    match findIndex (Signals.cacheKeyMatches (fst (fst key)) (snd (fst key)) (snd key)) cache,
          important with
    | Some i, false =>
        match nth_error cache i with
        | Some cached =>
            World.on_map (set_visiblesCache (update cache i (set_time 0 cached)))
              (Signals.updateVisibles reg (visibleTiles cached) (visibleSprites cached) w0)
        | None => w0
        end
    | Some i, true =>
        Signals.updateVisibles reg (Map.getVisibleTiles w reg) (Map.getVisibleSprites w reg)
          (World.on_map (set_visiblesCache (splice1 i cache ++ [fresh])) w0)
    | None, _ =>
        Signals.updateVisibles reg (Map.getVisibleTiles w reg) (Map.getVisibleSprites w reg)
          (World.on_map (set_visiblesCache (cache ++ [fresh])) w0)
    end.
Proof.
  unfold Signals.emit_updateVisibles, Signals.onUpdateVisibles, Spec.keyOf.
  rewrite !read_log.
  destruct (World.read w reg Sprite.position (0, 0)) as [px py]. reflexivity.
Qed.




End Cache.


(* ===================================================================== *)
(** ** The daily check of the goals *)
(* ===================================================================== *)

Section Goals.

Import ModelData.






End Goals.


(* ===================================================================== *)
(** ** What a visibility request leaves alone *)
(* ===================================================================== *)

Section Frames.

Import MapData.

Lemma emit_updateVisibles_frame (reg : nat) (important : bool) (w : World.t) :
  let w' := Signals.emit_updateVisibles reg important w in
  World.model w' = World.model w
  /\ World.arrays w' = World.arrays w
  /\ Spec.mapButCache (World.map w') = Spec.mapButCache (World.map w)
  /\ World.randomCalls w' = World.randomCalls w
  /\ World.pending w' = World.pending w
  /\ World.emitted w' = World.emitted w ++ [UpdateVisibles reg important]
  /\ List.length (World.heap w') = List.length (World.heap w)
  /\ (forall r, r <> reg -> World.deref w' r = World.deref w r)
  /\ (forall (A : Type) (g : Sprite.t -> A) (d : A) (r : nat),
         (forall s ts ss, g (Sprite.set_visibles ts ss s) = g s) ->
         World.read w' r g d = World.read w r g d).
Proof.
  intro w'. subst w'. rewrite emit_updateVisibles_unfold. cbv zeta.
  destruct (findIndex _ _) as [i|]; [destruct important|].
  - unfold Signals.updateVisibles.
    rewrite modify_model, modify_arrays, modify_map, modify_randomCalls, modify_pending,
      modify_emitted, heap_length_modify.
    repeat split; try reflexivity.
    + intros r Hr. rewrite deref_modify_other by congruence. reflexivity.
    + intros A g d r Hg. rewrite read_modify_frame by (intro s; apply Hg). reflexivity.
  - destruct (nth_error _ i) as [cached|].
    + unfold Signals.updateVisibles.
      change (World.model (World.on_map ?f ?w1)) with (World.model w1).
      change (World.arrays (World.on_map ?f ?w1)) with (World.arrays w1).
      change (World.randomCalls (World.on_map ?f ?w1)) with (World.randomCalls w1).
      change (World.pending (World.on_map ?f ?w1)) with (World.pending w1).
      change (World.emitted (World.on_map ?f ?w1)) with (World.emitted w1).
      change (World.heap (World.on_map ?f ?w1)) with (World.heap w1).
      change (World.map (World.on_map ?f ?w1)) with (f (World.map w1)).
      rewrite modify_model, modify_arrays, modify_map, modify_randomCalls, modify_pending,
        modify_emitted, heap_length_modify.
      repeat split; try reflexivity.
      * intros r Hr.
        change (World.deref (World.on_map ?f ?w1) r) with (World.deref w1 r).
        rewrite deref_modify_other by congruence. reflexivity.
      * intros A g d r Hg.
        change (World.read (World.on_map ?f ?w1) r g d) with (World.read w1 r g d).
        rewrite read_modify_frame by (intro s; apply Hg). reflexivity.
    + repeat split; reflexivity.
  - unfold Signals.updateVisibles.
    rewrite modify_model, modify_arrays, modify_map, modify_randomCalls, modify_pending,
      modify_emitted, heap_length_modify.
    repeat split; try reflexivity.
    + intros r Hr. rewrite deref_modify_other by congruence. reflexivity.
    + intros A g d r Hg. rewrite read_modify_frame by (intro s; apply Hg). reflexivity.
Qed.

End Frames.

(* ===================================================================== *)
(** ** Purchases *)
(* ===================================================================== *)

Section Purchases.

Import ModelData.








End Purchases.

(* ===================================================================== *)
(** ** Movement *)
(* ===================================================================== *)

Section Movement.

Import SpriteMethods.

Lemma deref_emit_updateVisibles (reg r : nat) (important : bool) (w : World.t) (s : Sprite.t) :
  World.deref w r = Some s ->
  exists s', World.deref (Signals.emit_updateVisibles reg important w) r = Some s'.
Proof.
  intro H.
  destruct (emit_updateVisibles_frame reg important w) as [_ [_ [_ [_ [_ [_ [Hl _]]]]]]].
  destruct (World.deref (Signals.emit_updateVisibles reg important w) r) eqn:E; [eauto|].
  unfold World.deref in *. apply nth_error_None in E. apply deref_Some_lt in H.
  rewrite Hl in E. lia.
Qed.





End Movement.

(* ===================================================================== *)
(** ** Animals *)
(* ===================================================================== *)

Section Animals.

Lemma deref_change_same (f : Sprite.AnimalData -> Sprite.AnimalData) (reg : nat)
      (w : World.t) (s : Sprite.t) :
  World.deref w reg = Some s ->
  World.deref (Animal.change f reg w) reg = Some (Sprite.set_animal (f (Sprite.animal s)) s).
Proof.
  intro H. unfold Animal.change.
  exact (deref_modify_same reg (fun s0 => Sprite.set_animal (f (Sprite.animal s0)) s0) w s H).
Qed.

Lemma deref_random (E : Env) (w : World.t) (r : nat) :
  World.deref (snd (World.random E w)) r = World.deref w r.
Proof. reflexivity. Qed.

(** Ageing and decay touch the hill flag and the animal fields only. *)
Lemma decayed_deref (E : Env) (reg : nat) (dt : Q) (w : World.t) (s : Sprite.t) :
  World.deref w reg = Some s ->
  exists a' b,
    World.deref (Spec.decayed E reg dt w) reg
    = Some (Sprite.set_animal a' (Sprite.set_isOnHill b s))
    /\ Sprite.isCaptured a' = Sprite.isCaptured (Sprite.animal s)
    /\ (Sprite.isCaptured (Sprite.animal s) = true ->
        Sprite.foodLevel a' = Sprite.foodLevel (Sprite.animal s)
        /\ Sprite.hydrationLevel a' = Sprite.hydrationLevel (Sprite.animal s)
        /\ World.randomCalls (Spec.decayed E reg dt w) = World.randomCalls w
        /\ World.emitted (Spec.decayed E reg dt w) = World.emitted w).
Proof.
  intro Hs. unfold Spec.decayed, SpriteMethods.updateState.
  pose proof (deref_modify_same reg
                (fun s0 => Sprite.set_isOnHill
                   (existsb (fun tl => cell_eqb (Tile.position tl)
                                         (Math_floor (fst (Sprite.position s0)),
                                          Math_floor (snd (Sprite.position s0)))
                                       && Tile.isKind Tile.Hill tl)
                            (Sprite.visibleTiles s0)) s0) w s Hs) as H1.
  cbv beta in H1.
  set (b := existsb _ (Sprite.visibleTiles s)) in H1.
  set (w1 := World.modify reg _ w) in *.
  pose proof (deref_change_same (fun a => Sprite.with_age (Sprite.age a + dt / 1440) a)
                                reg w1 _ H1) as H2.
  set (w2 := Animal.change _ reg w1) in *.
  cbn [Sprite.animal Sprite.set_isOnHill] in H2.
  unfold Animal.isBeingCaptured, Animal.field. rewrite (read_Some _ _ _ _ _ _ H2).
  cbn [Sprite.animal Sprite.set_animal Sprite.isCaptured Sprite.with_age].
  destruct (Sprite.isCaptured (Sprite.animal s)) eqn:Ec.
  - eexists _, b. split; [exact H2|]. split; [cbn; congruence|]. intros _.
    cbn [Sprite.foodLevel Sprite.hydrationLevel Sprite.with_age].
    subst w2 w1. unfold Animal.change.
    rewrite !modify_randomCalls, !modify_emitted. auto.
  - unfold Animal.updateHungerAndThirst.
    unfold World.random. cbv zeta.
    match goal with
    | |- context [Animal.change ?f reg (World.set_randomCalls ?n w2)] =>
        pose proof (deref_change_same f reg (World.set_randomCalls n w2) _ H2) as H3;
        set (w3 := Animal.change f reg (World.set_randomCalls n w2)) in *
    end.
    match goal with
    | |- context [Animal.change ?f reg (World.set_randomCalls ?n w3)] =>
        pose proof (deref_change_same f reg (World.set_randomCalls n w3) _ H3) as H4
    end.
    cbn [Sprite.animal Sprite.set_animal] in H4.
    eexists _, b. split; [exact H4|]. split; [cbn; congruence|]. discriminate.
Qed.

Lemma act_decayed (E : Env) (reg : nat) (dt : Q) (w : World.t) :
  Animal.act E reg dt w
  = let w := Spec.decayed E reg dt w in
    if Qle_bool (Animal.foodLevel w reg) 0 || Qle_bool (Animal.hydrationLevel w reg) 0 then
      Signals.emit_animalDead reg w
    else
      let w :=
        if Animal.isHungry w reg || Animal.isThirsty w reg then
          World.modify reg (Sprite.set_restingTime 0)
                       (Animal.updateMemory reg (Signals.emit_updateVisibles reg false w))
        else w in
      let (resting, w) := Animal.isResting dt reg w in
      if resting then w else Animal.decideAction E dt reg w.
Proof. reflexivity. Qed.

Lemma not_hungry_alive (w : World.t) (reg : nat) :
  Animal.isHungry w reg = false -> Qle_bool (Animal.foodLevel w reg) 0 = false.
Proof.
  unfold Animal.isHungry. intro H. apply Qlt_bool_false_iff in H.
  apply Qle_bool_false_iff. eapply Qlt_le_trans; [|exact H]. reflexivity.
Qed.

Lemma not_thirsty_alive (w : World.t) (reg : nat) :
  Animal.isThirsty w reg = false -> Qle_bool (Animal.hydrationLevel w reg) 0 = false.
Proof.
  unfold Animal.isThirsty. intro H. apply Qlt_bool_false_iff in H.
  apply Qle_bool_false_iff. eapply Qlt_le_trans; [|exact H]. reflexivity.
Qed.

(** C6, as amended.  For every animal with resting timer [T > 0] that is
    neither hungry nor thirsty once the decay of this tick is applied,
    [act(dt)] with [0 <= dt < T] leaves the position unchanged and the
    resting timer equal to [T - dt]. *)
Theorem C6_resting_animal_stays (E : Env) (w : World.t) (reg : nat) (s : Sprite.t) (dt : Q) :
  World.deref w reg = Some s ->
  0 < Sprite.restingTime s -> 0 <= dt -> dt < Sprite.restingTime s ->
  Animal.isHungry (Spec.decayed E reg dt w) reg = false ->
  Animal.isThirsty (Spec.decayed E reg dt w) reg = false ->
  World.read (Animal.act E reg dt w) reg Sprite.position (0, 0) = Sprite.position s
  /\ World.read (Animal.act E reg dt w) reg Sprite.restingTime 0
     == Sprite.restingTime s - dt.
Proof.
  intros Hs HT Hdt0 Hdt Hh Ht. rewrite act_decayed. cbv zeta.
  rewrite (not_hungry_alive _ _ Hh), (not_thirsty_alive _ _ Ht), Hh, Ht.
  cbn [orb].
  destruct (decayed_deref E reg dt w s Hs) as [a' [b [H1 _]]].
  unfold Animal.isResting. rewrite (read_Some _ _ _ _ _ _ H1).
  cbn [Sprite.restingTime Sprite.set_animal Sprite.set_isOnHill].
  apply Qlt_bool_iff in HT. rewrite HT.
  rewrite !(read_modify_same _ _ _ _ _ _ _ H1).
  cbn [Sprite.position Sprite.restingTime Sprite.set_restingTime Sprite.set_animal
         Sprite.set_isOnHill].
  split; [reflexivity|]. unfold Math_max. apply Q.max_r. lra.
Qed.

(** The theorem at the sated zebra with 2 units of rest left, [dt = 1]. *)
Lemma C6_resting_animal_stays_witness :
  World.read (Animal.act Example.env 0 1 Example.satedResting) 0 Sprite.position (0, 0)
  = (3, 3)
  /\ World.read (Animal.act Example.env 0 1 Example.satedResting) 0 Sprite.restingTime 0
     == 2 - 1.
Proof.
  apply (C6_resting_animal_stays Example.env Example.satedResting 0
           (Example.object Example.satedResting 0) 1).
  - reflexivity.
  - reflexivity.
  - vm_compute. discriminate.
  - reflexivity.
  - vm_compute. reflexivity.
  - vm_compute. reflexivity.
Defined.

(** C6 as stated fails for a hungry animal: the zebra with food level 50
    and resting timer 2, ticked with [dt = 1], has its timer reset to 0,
    not lowered to 1, and walks off from (3, 3) in search of food. *)
Lemma C6_counterexample :
  World.read Example.hungryResting 0 Sprite.restingTime 0 = 2
  /\ World.read Example.hungryResting 0 Sprite.position (0, 0) = (3, 3)
  /\ World.read (Animal.act Example.env 0 1 Example.hungryResting) 0 Sprite.restingTime 0
     == 0
  /\ ~ World.read (Animal.act Example.env 0 1 Example.hungryResting) 0 Sprite.restingTime 0
       == 2 - 1
  /\ ~ fst (World.read (Animal.act Example.env 0 1 Example.hungryResting) 0
                       Sprite.position (0, 0)) == 3.
Proof.
  split; [reflexivity|]. split; [reflexivity|]. split; [vm_compute; reflexivity|].
  split; vm_compute; discriminate.
Qed.

End Animals.

Section Captured.

Import SpriteMethods.

Lemma keepsAnimal_refl (reg : nat) (w : World.t) : Spec.keepsAnimal reg w w.
Proof.
  split; [reflexivity|]. split.
  - exists []. split; [now rewrite app_nil_r | constructor].
  - intros s H. eauto.
Qed.

Lemma keepsAnimal_trans (reg : nat) (w1 w2 w3 : World.t) :
  Spec.keepsAnimal reg w1 w2 -> Spec.keepsAnimal reg w2 w3 -> Spec.keepsAnimal reg w1 w3.
Proof.
  intros [Hr1 [[l1 [He1 Hf1]] Hd1]] [Hr2 [[l2 [He2 Hf2]] Hd2]].
  split; [congruence|]. split.
  - exists (l1 ++ l2). split; [rewrite He2, He1; now rewrite app_assoc|].
    apply Forall_app. auto.
  - intros s Hs. destruct (Hd1 s Hs) as [s2 [Hs2 Ha2]].
    destruct (Hd2 s2 Hs2) as [s3 [Hs3 Ha3]]. exists s3. split; [exact Hs3|congruence].
Qed.

Lemma keepsAnimal_modify (reg : nat) (f : Sprite.t -> Sprite.t) (w : World.t) :
  (forall s, Sprite.animal (f s) = Sprite.animal s) ->
  Spec.keepsAnimal reg w (World.modify reg f w).
Proof.
  intro Hf. split; [apply modify_randomCalls|]. split.
  - exists []. rewrite modify_emitted, app_nil_r. split; [reflexivity|constructor].
  - intros s Hs. exists (f s). split; [now apply deref_modify_same | apply Hf].
Qed.

Lemma keepsAnimal_emit (reg : nat) (important : bool) (w : World.t) :
  Spec.keepsAnimal reg w (Signals.emit_updateVisibles reg important w).
Proof.
  destruct (emit_updateVisibles_frame reg important w)
    as [_ [_ [_ [Hr [_ [He [_ [_ Hread]]]]]]]].
  split; [exact Hr|]. split.
  - exists [UpdateVisibles reg important]. split; [exact He|].
    constructor; [eauto|constructor].
  - intros s Hs. destruct (deref_emit_updateVisibles reg reg important w s Hs) as [s' Hs'].
    exists s'. split; [exact Hs'|].
    specialize (Hread _ Sprite.animal (Sprite.animal s) reg (fun _ _ _ => eq_refl)).
    unfold World.read in Hread. now rewrite Hs', Hs in Hread.
Qed.

(** A movement step keeps the animal fields. *)
Lemma move_keepsAnimal (E : Env) (dt : Q) (bounds : option Bounds) (reg : nat) (w : World.t) :
  Spec.keepsAnimal reg w (move E dt bounds reg w).
Proof.
  unfold move. destruct (target w reg) as [[tx ty]|]; [|apply keepsAnimal_refl].
  destruct (World.read w reg Sprite.position (0, 0)) as [x y].
  destruct (Qlt_bool 0 _); [|apply keepsAnimal_refl].
  cbv zeta.
  match goal with
  | |- context [World.modify reg (Sprite.set_velocity ?v) w] =>
      set (w1 := World.modify reg (Sprite.set_velocity v) w)
  end.
  assert (H1 : Spec.keepsAnimal reg w w1)
    by (apply keepsAnimal_modify; reflexivity).
  match goal with
  | |- context [if Tile.same_opt ?a ?b then w1 else ?e] =>
      set (w2 := if Tile.same_opt a b then w1 else e)
  end.
  assert (H2 : Spec.keepsAnimal reg w w2).
  { subst w2. destruct (Tile.same_opt _ _); [exact H1|].
    match goal with
    | |- Spec.keepsAnimal _ _ (Signals.emit_updateVisibles _ _ ?wx) =>
        apply keepsAnimal_trans with (w2 := wx); [|apply keepsAnimal_emit]
    end.
    apply keepsAnimal_trans with (w2 := w1); [exact H1|].
    apply keepsAnimal_modify. reflexivity. }
  destruct (_ && _).
  - destruct (target w2 reg); [|exact H2].
    apply keepsAnimal_trans with (w2 := w2); [exact H2|].
    apply keepsAnimal_modify. reflexivity.
  - destruct bounds; [|exact H2].
    apply keepsAnimal_trans with (w2 := w2); [exact H2|].
    apply keepsAnimal_modify. reflexivity.
Qed.

Lemma read_set_randomCalls (A : Type) (g : Sprite.t -> A) (d : A) (r n : nat) (w : World.t) :
  World.read (World.set_randomCalls n w) r g d = World.read w r g d.
Proof. reflexivity. Qed.

(** Ageing and decay leave every field but the hill flag and the animal
    fields as they are, in every object. *)
Lemma decayed_read_frame (A : Type) (g : Sprite.t -> A) (d : A) (E : Env)
      (reg r : nat) (dt : Q) (w : World.t) :
  (forall b s, g (Sprite.set_isOnHill b s) = g s) ->
  (forall a s, g (Sprite.set_animal a s) = g s) ->
  World.read (Spec.decayed E reg dt w) r g d = World.read w r g d.
Proof.
  intros Hb Ha. unfold Spec.decayed, updateState.
  destruct (Animal.isBeingCaptured _ reg).
  - unfold Animal.change.
    rewrite read_modify_frame by (intro; apply Ha).
    rewrite read_modify_frame by (intro; apply Hb). reflexivity.
  - unfold Animal.updateHungerAndThirst, World.random, Animal.change. cbv zeta.
    rewrite read_modify_frame by (intro; apply Ha). rewrite read_set_randomCalls.
    rewrite read_modify_frame by (intro; apply Ha). rewrite read_set_randomCalls.
    rewrite read_modify_frame by (intro; apply Ha).
    rewrite read_modify_frame by (intro; apply Hb). reflexivity.
Qed.

Lemma isAtDestination_frame (threshold : Q) (w w1 : World.t) (reg : nat) :
  (forall r, World.read w1 r Sprite.position (0, 0) = World.read w r Sprite.position (0, 0)) ->
  World.read w1 reg Sprite.pathTo None = World.read w reg Sprite.pathTo None ->
  isAtDestination threshold w1 reg = isAtDestination threshold w reg.
Proof.
  intros Hp Ht. unfold isAtDestination, target. rewrite Ht, Hp.
  destruct (World.read w reg Sprite.pathTo None) as [[p|r]|]; try reflexivity.
  unfold World.resolve. now rewrite Hp.
Qed.

(** What a captured, fed animal decides: it arrives and dies, or it moves. *)
Lemma decideAction_captured (E : Env) (dt : Q) (reg : nat) (w : World.t) (s : Sprite.t) :
  World.deref w reg = Some s ->
  Sprite.isCaptured (Sprite.animal s) = true ->
  Sprite.foodLevel (Sprite.animal s) = 100 ->
  Sprite.hydrationLevel (Sprite.animal s) = 100 ->
  Animal.decideAction E dt reg w
  = if isAtDestination (1 # 2) w reg then Animal.handleArrival E reg w
    else move E dt (computeBounds (Sprite.visibleTiles s)) reg w.
Proof.
  intros Hs Hc Hf Hh.
  assert (Hthirsty : Animal.isThirsty w reg = false).
  { unfold Animal.isThirsty, Animal.hydrationLevel, Animal.field.
    now rewrite (read_Some _ _ _ _ _ _ Hs), Hh. }
  assert (Hhungry : Animal.isHungry w reg = false).
  { unfold Animal.isHungry, Animal.foodLevel, Animal.field.
    now rewrite (read_Some _ _ _ _ _ _ Hs), Hf. }
  assert (Hcap : Animal.isBeingCaptured w reg = true).
  { unfold Animal.isBeingCaptured, Animal.field.
    now rewrite (read_Some _ _ _ _ _ _ Hs). }
  unfold Animal.decideAction, Animal.chooseNeedTarget.
  rewrite Hthirsty. cbn [andb]. rewrite Hhungry. cbn [andb orb].
  rewrite Hhungry, Hthirsty, Hcap. cbn [andb orb negb].
  rewrite andb_false_r.
  rewrite (read_Some _ _ _ _ _ _ Hs).
  unfold isAtDestination at 1, target. rewrite (read_Some _ _ _ _ _ _ Hs).
  destruct (Sprite.pathTo s) as [p|] eqn:Ep.
  - cbn [negb andb]. unfold isAtDestination, target.
    rewrite !(read_Some _ _ _ _ _ _ Hs), Ep. reflexivity.
  - cbn [negb andb]. unfold isAtDestination, target.
    rewrite !(read_Some _ _ _ _ _ _ Hs), Ep. reflexivity.
Qed.

Lemma handleArrival_captured (E : Env) (reg : nat) (w : World.t) (s : Sprite.t)
      (p : Sprite.PosRef) :
  World.deref w reg = Some s ->
  Sprite.pathTo s = Some p ->
  Sprite.isCaptured (Sprite.animal s) = true ->
  exists s',
    World.deref (Animal.handleArrival E reg w) reg = Some s'
    /\ Sprite.isCaptured (Sprite.animal s') = true
    /\ Sprite.foodLevel (Sprite.animal s') = Sprite.foodLevel (Sprite.animal s)
    /\ Sprite.hydrationLevel (Sprite.animal s') = Sprite.hydrationLevel (Sprite.animal s)
    /\ World.randomCalls (Animal.handleArrival E reg w) = World.randomCalls w
    /\ World.emitted (Animal.handleArrival E reg w) = World.emitted w ++ [AnimalDead reg].
Proof.
  intros Hs Hp Hc. unfold Animal.handleArrival.
  rewrite (read_Some _ _ _ _ _ _ Hs), Hp.
  pose proof (deref_modify_same reg (Sprite.set_velocity (0, 0)) w s Hs) as H1.
  set (w1 := World.modify reg (Sprite.set_velocity (0, 0)) w) in *.
  pose proof (deref_modify_same reg (Sprite.set_pathTo None) w1 _ H1) as H2.
  set (w2 := World.modify reg (Sprite.set_pathTo None) w1) in *.
  pose proof (deref_change_same (Sprite.with_isWandering false) reg w2 _ H2) as H3.
  set (w3 := Animal.change (Sprite.with_isWandering false) reg w2) in *.
  pose proof (deref_change_same (Sprite.with_targetNeed Sprite.NeedNone) reg w3 _ H3) as H4.
  set (w4 := Animal.change (Sprite.with_targetNeed Sprite.NeedNone) reg w3) in *.
  unfold Animal.isBeingCaptured, Animal.field. rewrite (read_Some _ _ _ _ _ _ H4).
  cbn [Sprite.animal Sprite.set_animal Sprite.isCaptured Sprite.with_targetNeed
         Sprite.with_isWandering Sprite.set_pathTo Sprite.set_velocity].
  rewrite Hc.
  eexists. split; [exact H4|].
  cbn [Sprite.animal Sprite.set_animal Sprite.isCaptured Sprite.with_targetNeed
         Sprite.with_isWandering Sprite.set_pathTo Sprite.set_velocity
         Sprite.foodLevel Sprite.hydrationLevel].
  split; [exact Hc|]. split; [reflexivity|]. split; [reflexivity|].
  unfold Signals.emit_animalDead, Map.removeSprite.
  cbn [World.randomCalls World.emitted World.on_map World.set_map World.set_arrays World.log
         World.set_emitted].
  subst w4 w3 w2 w1. unfold Animal.change.
  rewrite !modify_randomCalls, !modify_emitted. split; reflexivity.
Qed.

(** C10.  [capture(target)] sets the captured flag, resets the food and
    hydration levels to 100, clears the resting timer and retargets the
    animal.  While the flag is set and the levels are 100, [act(dt)] draws
    no random number (the decay is skipped), leaves the flag set and the
    levels at 100, and announces the death of the animal exactly when the
    animal is not resting and has arrived at its target: a captured animal
    never starves and never dies of thirst. *)
Theorem C10_captured_animal (E : Env) (w : World.t) (reg : nat) (s : Sprite.t) :
  World.deref w reg = Some s ->
  (forall pathTo,
      exists s',
        World.deref (Animal.capture pathTo reg w) reg = Some s'
        /\ Sprite.isCaptured (Sprite.animal s') = true
        /\ Sprite.foodLevel (Sprite.animal s') = 100
        /\ Sprite.hydrationLevel (Sprite.animal s') = 100
        /\ Sprite.restingTime s' = 0
        /\ Sprite.pathTo s' = Some pathTo)
  /\ (Sprite.isCaptured (Sprite.animal s) = true ->
      Sprite.foodLevel (Sprite.animal s) = 100 ->
      Sprite.hydrationLevel (Sprite.animal s) = 100 ->
      forall dt,
        (exists s',
            World.deref (Animal.act E reg dt w) reg = Some s'
            /\ Sprite.isCaptured (Sprite.animal s') = true
            /\ Sprite.foodLevel (Sprite.animal s') = 100
            /\ Sprite.hydrationLevel (Sprite.animal s') = 100)
        /\ World.randomCalls (Animal.act E reg dt w) = World.randomCalls w
        /\ exists l,
            World.emitted (Animal.act E reg dt w) = World.emitted w ++ l
            /\ (In (AnimalDead reg) l
                <-> Sprite.restingTime s <= 0 /\ Spec.arrived w reg)).
Proof.
  intro Hs. split.
  - intro pathTo. unfold Animal.capture.
    pose proof (deref_change_same (Sprite.with_isCaptured true) reg w s Hs) as H1.
    set (w1 := Animal.change (Sprite.with_isCaptured true) reg w) in *.
    pose proof (deref_change_same (Sprite.with_foodLevel 100) reg w1 _ H1) as H2.
    set (w2 := Animal.change (Sprite.with_foodLevel 100) reg w1) in *.
    pose proof (deref_change_same (Sprite.with_hydrationLevel 100) reg w2 _ H2) as H3.
    set (w3 := Animal.change (Sprite.with_hydrationLevel 100) reg w2) in *.
    pose proof (deref_modify_same reg (Sprite.set_restingTime 0) w3 _ H3) as H4.
    set (w4 := World.modify reg (Sprite.set_restingTime 0) w3) in *.
    pose proof (deref_modify_same reg (Sprite.set_pathTo (Some pathTo)) w4 _ H4) as H5.
    eexists. split; [exact H5|]. repeat split.
  - intros Hc Hf Hh dt. rewrite act_decayed. cbv zeta.
    destruct (decayed_deref E reg dt w s Hs) as [a' [b [H1 [Hc' Hkeep]]]].
    destruct (Hkeep Hc) as [Hf' [Hh' [Hr' He']]]. clear Hkeep.
    set (w1 := Spec.decayed E reg dt w) in *.
    set (s1 := Sprite.set_animal a' (Sprite.set_isOnHill b s)) in *.
    assert (Hc1 : Sprite.isCaptured (Sprite.animal s1) = true) by (cbn; congruence).
    assert (Hf1 : Sprite.foodLevel (Sprite.animal s1) = 100) by (cbn; congruence).
    assert (Hh1 : Sprite.hydrationLevel (Sprite.animal s1) = 100) by (cbn; congruence).
    assert (Efood : Animal.foodLevel w1 reg = 100).
    { unfold Animal.foodLevel, Animal.field. now rewrite (read_Some _ _ _ _ _ _ H1). }
    assert (Ehyd : Animal.hydrationLevel w1 reg = 100).
    { unfold Animal.hydrationLevel, Animal.field. now rewrite (read_Some _ _ _ _ _ _ H1). }
    unfold Animal.isHungry, Animal.isThirsty. rewrite Efood, Ehyd. cbn [Qle_bool orb].
    change (Qle_bool 100 0) with false. change (Qlt_bool 100 85) with false.
    change (Qlt_bool 100 80) with false. cbn [orb].
    assert (Harr : isAtDestination (1 # 2) w1 reg = isAtDestination (1 # 2) w reg).
    { apply isAtDestination_frame.
      - intro r. apply decayed_read_frame; reflexivity.
      - apply decayed_read_frame; reflexivity. }
    unfold Animal.isResting. rewrite (read_Some _ _ _ _ _ _ H1).
    change (Sprite.restingTime s1) with (Sprite.restingTime s).
    destruct (Qlt_bool 0 (Sprite.restingTime s)) eqn:Erest.
    + split; [|split].
      * eexists. split; [apply deref_modify_same; exact H1|]. repeat split; assumption.
      * now rewrite modify_randomCalls.
      * exists []. rewrite modify_emitted, app_nil_r. split; [exact He'|].
        split; [intros []|]. intros [Hle _]. apply Qlt_bool_iff in Erest.
        exfalso. exact (Qlt_not_le _ _ Erest Hle).
    + apply Qlt_bool_false_iff in Erest.
      rewrite (decideAction_captured E dt reg w1 s1 H1 Hc1 Hf1 Hh1). rewrite Harr.
      destruct (isAtDestination (1 # 2) w reg) eqn:Eat.
      * assert (Hp : exists p, Sprite.pathTo s1 = Some p).
        { unfold isAtDestination, target in Eat. rewrite (read_Some _ _ _ _ _ _ Hs) in Eat.
          change (Sprite.pathTo s1) with (Sprite.pathTo s).
          destruct (Sprite.pathTo s); [eauto|discriminate]. }
        destruct Hp as [p Hp].
        destruct (handleArrival_captured E reg w1 s1 p H1 Hp Hc1)
          as [s' [Hs' [Hcs [Hfs [Hhs [Hrs Hes]]]]]].
        split; [|split].
        -- exists s'. repeat split; congruence.
        -- congruence.
        -- exists [AnimalDead reg]. rewrite Hes, He'. split; [reflexivity|].
           split; [intros _; split; [exact Erest|exact Eat]|intros _; now left].
      * destruct (move_keepsAnimal E dt (computeBounds (Sprite.visibleTiles s1)) reg w1)
          as [Hrm [[l [Hel Hfl]] Hdm]].
        destruct (Hdm s1 H1) as [s' [Hs' Ha']].
        split; [|split].
        -- exists s'. rewrite Ha'. repeat split; assumption.
        -- congruence.
        -- exists l. rewrite Hel, He'. split; [reflexivity|]. split.
           ++ intro Hin. rewrite Forall_forall in Hfl.
              destruct (Hfl _ Hin) as [imp Himp]. discriminate.
           ++ intros [_ Ha]. unfold Spec.arrived in Ha. congruence.
Qed.

(** The theorem at the captured zebra. *)
Lemma C10_captured_animal_witness :
  World.randomCalls (Animal.act Example.env 0 1 Example.capturedZebra)
  = World.randomCalls Example.capturedZebra
  /\ Animal.foodLevel (Animal.act Example.env 0 1 Example.capturedZebra) 0 = 100.
Proof.
  destruct (C10_captured_animal Example.env Example.capturedZebra 0
              (Example.object Example.capturedZebra 0) eq_refl) as [_ H].
  destruct (H eq_refl eq_refl eq_refl 1) as [[s' [Hs' [_ [Hf _]]]] [Hr _]].
  split; [exact Hr|].
  unfold Animal.foodLevel, Animal.field, World.read. rewrite Hs'. exact Hf.
Defined.

End Captured.

(* ===================================================================== *)
(** ** Path planning *)
(* ===================================================================== *)

Section Roads.

Import MapData.

Lemma cell_eqb_eq (a b : cell) : cell_eqb a b = true <-> a = b.
Proof.
  unfold cell_eqb. destruct a as [a1 a2], b as [b1 b2]. cbn [fst snd].
  rewrite andb_true_iff, !Z.eqb_eq. split; [intros [-> ->]; reflexivity|].
  intro H. inversion H. auto.
Qed.

Lemma visitedHas_iff (c : cell) (visited : list cell) :
  Map.visitedHas c visited = true <-> In c visited.
Proof.
  unfold Map.visitedHas. rewrite existsb_exists. split.
  - intros [x [Hin He]]. apply cell_eqb_eq in He. now subst.
  - intro H. exists c. split; [exact H|]. now apply cell_eqb_eq.
Qed.

Lemma allCells_In (m : MapData.t) (c : cell) :
  In c (Spec.allCells m) <-> Spec.onMap m c.
Proof.
  unfold Spec.allCells, Spec.onMap. destruct c as [x y]. unfold cell.
  rewrite in_prod_iff, !in_map_iff. cbn [fst snd]. split.
  - intros [[i [Hi Hin]] [j [Hj Hjn]]]. apply in_seq in Hin, Hjn. lia.
  - intros [Hx Hy]. split.
    + exists (Z.to_nat x). split; [lia|]. apply in_seq. lia.
    + exists (Z.to_nat y). split; [lia|]. apply in_seq. lia.
Qed.

Lemma allCells_length (m : MapData.t) :
  (0 <= width m)%Z -> (0 <= height m)%Z ->
  List.length (Spec.allCells m) = Z.to_nat (width m * height m).
Proof.
  intros Hw Hh. unfold Spec.allCells, cell.
  rewrite length_prod, !length_map, !length_seq. lia.
Qed.

Lemma checkGrid_loaded (m : MapData.t) :
  Spec.checkGrid m = true -> Spec.loadedGrid m.
Proof.
  unfold Spec.checkGrid, Spec.loadedGrid.
  rewrite !andb_true_iff, !Z.ltb_lt, forallb_forall.
  intros [[Hw Hh] Hall]. split; [exact Hw|]. split; [exact Hh|].
  intros c Hc. apply allCells_In in Hc. specialize (Hall c Hc).
  destruct (Spec.tileAt m c) as [tl|]; [|discriminate].
  exists tl. split; [reflexivity|]. now apply cell_eqb_eq.
Qed.

(** A simple list of cells of the map is no longer than the map is large. *)
Lemma simple_cells_bound (m : MapData.t) (p : list cell) :
  (0 <= width m)%Z -> (0 <= height m)%Z ->
  NoDup p -> Forall (Spec.onMap m) p ->
  (List.length p <= Z.to_nat (width m * height m))%nat.
Proof.
  intros Hw Hh Hnd Hall. rewrite <- allCells_length by assumption.
  apply NoDup_incl_length; [exact Hnd|].
  intros c Hc. apply allCells_In. rewrite Forall_forall in Hall. auto.
Qed.

Lemma steps4_In (d : cell) :
  In d Map.steps4 <-> (Z.abs (fst d) + Z.abs (snd d) = 1)%Z.
Proof.
  destruct d as [dx dy]. cbn [fst snd]. unfold Map.steps4. split.
  - intros [H|[H|[H|[H|[]]]]]; inversion H; reflexivity.
  - intro H. simpl.
    assert (Hc : ((dx = -1 /\ dy = 0) \/ (dx = 0 /\ dy = -1) \/ (dx = 0 /\ dy = 1)
                  \/ (dx = 1 /\ dy = 0))%Z) by lia.
    destruct Hc as [[-> ->]|[[-> ->]|[[-> ->]|[-> ->]]]]; auto.
Qed.

Lemma neighbors_In (m : MapData.t) (road n : Tile.t) :
  In n (Map.neighbors m road)
  <-> exists c, Spec.adjacent (Tile.position road) c /\ Spec.onMap m c
                /\ Spec.tileAt m c = Some n /\ Map.isRoadKind n = true.
Proof.
  unfold Map.neighbors. destruct (Tile.position road) as [x y] eqn:Ep.
  rewrite in_flat_map. split.
  - intros [d [Hd Hin]]. apply steps4_In in Hd.
    destruct (Map.inBounds m (x + fst d, y + snd d)%Z) eqn:Eb; [|contradiction].
    apply inBounds_iff in Eb.
    destruct (Map.getTileAt m (x + fst d) (y + snd d)) as [t|] eqn:Et; [|contradiction].
    destruct (Map.isRoadKind t) eqn:Er; [|contradiction].
    destruct Hin as [->|[]].
    exists (x + fst d, y + snd d)%Z. repeat split; try apply Eb; auto.
    unfold Spec.adjacent. cbn [fst snd]. lia.
  - intros [[cx cy] [Ha [Hm [Ht Hr]]]]. unfold Spec.adjacent in Ha. cbn [fst snd] in Ha.
    exists (cx - x, cy - y)%Z. split; [apply steps4_In; cbn [fst snd]; lia|].
    cbn [fst snd]. replace (x + (cx - x))%Z with cx by lia.
    replace (y + (cy - y))%Z with cy by lia.
    apply inBounds_iff in Hm. rewrite Hm.
    unfold Spec.tileAt in Ht. cbn [fst snd] in Ht. rewrite Ht, Hr. now left.
Qed.

Lemma chain_snoc (p : list cell) (a b : cell) :
  Spec.chain (p ++ [a]) -> Spec.adjacent a b -> Spec.chain ((p ++ [a]) ++ [b]).
Proof.
  induction p as [|x p IH]; intros Hc Ha.
  - simpl. auto.
  - destruct p as [|y p].
    + simpl in *. tauto.
    + cbn [app] in *. cbn [Spec.chain] in *. destruct Hc as [Hxy Hc].
      split; [exact Hxy|]. apply IH; assumption.
Qed.

Lemma last_snoc (A : Type) (l : list A) (a d : A) : last (l ++ [a]) d = a.
Proof. apply last_last. Qed.

Section Search.

Variable m : MapData.t.
Hypothesis Hloaded : Spec.loadedGrid m.

Lemma branch_cells (path : list Tile.t) (current : Tile.t) :
  List.map Tile.position (path ++ [current])
  = List.map Tile.position path ++ [Tile.position current].
Proof. now rewrite map_app. Qed.

Lemma branch_bound (path : list Tile.t) (current : Tile.t) :
  Spec.branch m path current ->
  (List.length path + 1 <= Z.to_nat (width m * height m))%nat.
Proof.
  intros [_ [Hnd [_ [Hon _]]]]. destruct Hloaded as [Hw [Hh _]].
  pose proof (simple_cells_bound m _ ltac:(lia) ltac:(lia) Hnd Hon) as H.
  now rewrite length_map, length_app in H.
Qed.

Lemma branch_step (path : list Tile.t) (current n : Tile.t) :
  Spec.branch m path current ->
  In n (Map.neighbors m current) ->
  ~ In (Tile.position n) (List.map Tile.position (path ++ [current])) ->
  Spec.branch m (path ++ [current]) n.
Proof.
  intros [Hhd [Hnd [Hch [Hon [Hroad Hcur]]]]] Hn Hfresh.
  apply neighbors_In in Hn. destruct Hn as [c [Hadj [Hc [Ht Hr]]]].
  destruct Hloaded as [_ [_ Hgrid]]. destruct (Hgrid c Hc) as [tl [Htl Hpos]].
  assert (tl = n) by congruence. subst tl.
  unfold Spec.branch. cbv zeta. rewrite (branch_cells (path ++ [current]) n).
  set (P := List.map Tile.position (path ++ [current])) in *.
  assert (HP : exists a rest, P = a :: rest).
  { subst P. rewrite branch_cells. destruct (List.map Tile.position path); simpl; eauto. }
  destruct HP as [a [rest HP]]. rewrite Hpos in *.
  repeat split.
  - rewrite HP in *. exact Hhd.
  - apply NoDup_app; [exact Hnd | constructor; [intros []|constructor] |].
    intros x Hx [<-|[]]. contradiction.
  - subst P. rewrite branch_cells in *. now apply chain_snoc.
  - apply Forall_app. split; [exact Hon|]. constructor; [exact Hc|constructor].
  - rewrite HP in *. cbn [app tl] in *. apply Forall_app. split; [exact Hroad|].
    constructor; [|constructor]. exists n. auto.
  - rewrite <- Hpos in Ht. rewrite <- Hpos. exact Ht.
Qed.

Lemma reaches_step (path : list Tile.t) (current : Tile.t) :
  Spec.branch m path current ->
  Tile.isKind Tile.Exit current = false ->
  Spec.reaches m (List.map Tile.position path) (Tile.position current) ->
  exists n,
    In n (Map.neighbors m current)
    /\ ~ In (Tile.position n) (List.map Tile.position (path ++ [current]))
    /\ Spec.reaches m (List.map Tile.position (path ++ [current])) (Tile.position n).
Proof.
  intros [_ [_ [_ [_ [_ Hcur]]]]] Hexit [s [Hnd [Hch [Havoid [Hon [Hroad Hlast]]]]]].
  destruct s as [|c1 s'].
  - exfalso. cbn [last] in Hlast. destruct Hlast as [tl [Ht He]].
    assert (tl = current) by congruence. subst tl. congruence.
  - cbn [Spec.chain] in Hch. destruct Hch as [Hadj Hch].
    inversion Hon as [|? ? Hc1 Hon']; subst.
    inversion Hroad as [|? ? [n [Hn Hr]] Hroad']; subst.
    destruct Hloaded as [_ [_ Hgrid]]. destruct (Hgrid c1 Hc1) as [tl [Htl Hpos]].
    assert (tl = n) by congruence. subst tl.
    inversion Hnd as [|? ? Hcur_notin Hnd']; subst.
    assert (Hfresh : forall x, In x (Tile.position n :: s') ->
                               ~ In x (List.map Tile.position (path ++ [current]))).
    { intros x Hx. rewrite branch_cells. intro Hin. apply in_app_or in Hin.
      destruct Hin as [Hin|[<-|[]]].
      - apply (Havoid x); [now right|exact Hin].
      - exact (Hcur_notin Hx). }
    exists n. split; [|split].
    + apply neighbors_In. exists (Tile.position n). auto.
    + apply Hfresh. now left.
    + exists s'. repeat split; auto.
Qed.

Lemma fold_neighbors (k : nat) (path' : list Tile.t) (visited' : list cell)
      (good : list Tile.t -> Prop) (reach : Tile.t -> Prop) :
  forall ns,
    (forall n, In n ns -> ~ In (Tile.position n) visited' ->
               forall found, exists new,
                   Map.dfs k m n path' visited' found = Some (found ++ new)
                   /\ (forall q, In q new -> good q)
                   /\ (reach n -> new <> [])) ->
    forall found, exists new,
        fold_left
          (fun acc neighbor =>
             match acc with
             | None => None
             | Some found' =>
                 if Map.visitedHas (Tile.position neighbor) visited' then Some found'
                 else Map.dfs k m neighbor path' visited' found'
             end) ns (Some found)
        = Some (found ++ new)
        /\ (forall q, In q new -> good q)
        /\ ((exists n, In n ns /\ ~ In (Tile.position n) visited' /\ reach n) -> new <> []).
Proof.
  induction ns as [|n ns IH]; intros Hrec found.
  - exists []. rewrite app_nil_r. split; [reflexivity|]. split; [intros q []|].
    intros [n [[] _]].
  - cbn [fold_left].
    assert (Hrec' : forall n', In n' ns -> ~ In (Tile.position n') visited' ->
                               forall found, exists new,
                                   Map.dfs k m n' path' visited' found = Some (found ++ new)
                                   /\ (forall q, In q new -> good q)
                                   /\ (reach n' -> new <> [])).
    { intros n' Hn'. apply Hrec. now right. }
    destruct (Map.visitedHas (Tile.position n) visited') eqn:Ev.
    + destruct (IH Hrec' found) as [new [Hf [Hg Hne]]].
      exists new. split; [exact Hf|]. split; [exact Hg|].
      intros [n' [[<-|Hin] [Hfresh Hreach]]].
      * apply visitedHas_iff in Ev. contradiction.
      * apply Hne. eauto.
    + assert (Hfresh : ~ In (Tile.position n) visited').
      { intro Hin. apply visitedHas_iff in Hin. congruence. }
      destruct (Hrec n (or_introl eq_refl) Hfresh found) as [new1 [Hd [Hg1 Hne1]]].
      rewrite Hd.
      destruct (IH Hrec' (found ++ new1)) as [new2 [Hf [Hg2 Hne2]]].
      exists (new1 ++ new2). rewrite app_assoc. split; [exact Hf|]. split.
      * intros q Hq. apply in_app_or in Hq. destruct Hq; auto.
      * intros [n' [[<-|Hin] [Hfr Hreach]]] Hnil; apply app_eq_nil in Hnil;
          destruct Hnil as [Hn1 Hn2].
        -- exact (Hne1 Hreach Hn1).
        -- apply Hne2; eauto.
Qed.

(** The search from a branch returns, every path it adds is a road path,
    and it adds one whenever an exit can be reached. *)
Lemma dfs_correct :
  forall fuel current path found,
    Spec.branch m path current ->
    (Z.to_nat (width m * height m) + 1 <= fuel + List.length path)%nat ->
    exists new,
      Map.dfs fuel m current path (rev (List.map Tile.position path)) found
      = Some (found ++ new)
      /\ (forall q, In q new -> Spec.roadPath m (List.map Tile.position q))
      /\ (Spec.reaches m (List.map Tile.position path) (Tile.position current) ->
          new <> []).
Proof.
  induction fuel as [|k IH]; intros current path found Hb Hfuel.
  - pose proof (branch_bound path current Hb). lia.
  - cbn [Map.dfs]. destruct (Tile.isKind Tile.Exit current) eqn:Eexit.
    + exists [path ++ [current]]. split; [reflexivity|]. split; [|discriminate].
      intros q [<-|[]]. destruct Hb as [Hhd [Hnd [Hch [Hon [Hroad Hcur]]]]].
      repeat split; auto. rewrite branch_cells, last_snoc. exists current. auto.
    + assert (Hvis : Tile.position current :: rev (List.map Tile.position path)
                     = rev (List.map Tile.position (path ++ [current]))).
      { now rewrite branch_cells, rev_unit. }
      rewrite Hvis.
      assert (Hmem : forall x, In x (rev (List.map Tile.position (path ++ [current])))
                               <-> In x (List.map Tile.position (path ++ [current]))).
      { intro x. symmetry. apply in_rev. }
      destruct (fold_neighbors k (path ++ [current])
                  (rev (List.map Tile.position (path ++ [current])))
                  (fun q => Spec.roadPath m (List.map Tile.position q))
                  (fun n => Spec.reaches m (List.map Tile.position (path ++ [current]))
                                         (Tile.position n))
                  (Map.neighbors m current)) with (found := found)
        as [new [Hf [Hg Hne]]].
      * intros n Hn Hfresh found0. apply IH.
        -- apply branch_step; auto. intro Hin. apply Hfresh. now apply Hmem.
        -- rewrite length_app. cbn [List.length]. lia.
      * exists new. split; [exact Hf|]. split; [exact Hg|].
        intro Hreach. apply Hne.
        destruct (reaches_step path current Hb Eexit Hreach) as [n [Hn [Hfresh Hr]]].
        exists n. split; [exact Hn|]. split; [|exact Hr].
        intro Hin. apply Hfresh. now apply Hmem.
Qed.

End Search.

(** C4.  On a loaded map [planRoads()] returns [true] exactly when there
    is a simple path from the entrance cell to an exit (the exit cell, the
    only exit of a map, being in the opposite corner) through cells
    occupied by road-kind tiles, each step going to a horizontally or
    vertically adjacent cell; every path it collects is such a path.
    Setting [isOpen] to [true] while no such path exists leaves the flag
    as it is; with such a path the flag becomes [true]. *)
Theorem C4_planRoads_and_opening (m : MapData.t) :
  Spec.loadedGrid m ->
  (fst (Map.planRoads m) = true <-> exists p, Spec.roadPath m p)
  /\ (forall q, In q (paths (snd (Map.planRoads m))) ->
                Spec.roadPath m (List.map Tile.position q))
  /\ (Spec.exitInCorner m ->
      (fst (Map.planRoads m) = true
       <-> exists p, Spec.roadPath m p
                     /\ last p (0, 0)%Z = (width m - 1, height m - 1)%Z))
  /\ (forall w, World.map w = m ->
                (fst (Map.planRoads m) = false ->
                 ModelData.isOpen (World.model (SafariModel.setIsOpen true w))
                 = ModelData.isOpen (World.model w))
                /\ (fst (Map.planRoads m) = true ->
                    ModelData.isOpen (World.model (SafariModel.setIsOpen true w)) = true)).
Proof.
  intro Hloaded.
  assert (Horigin : Spec.onMap m (0, 0)%Z).
  { destruct Hloaded as [Hw [Hh _]]. unfold Spec.onMap. cbn [fst snd]. lia. }
  destruct Hloaded as [Hw [Hh Hgrid]].
  destruct (Hgrid _ Horigin) as [entrance [He Hpos]].
  assert (Hloaded : Spec.loadedGrid m) by (repeat split; assumption).
  assert (Hb : Spec.branch m [] entrance).
  { unfold Spec.branch. cbn [app List.map hd_error tl]. rewrite Hpos.
    repeat split; auto;
      try (constructor; [simpl; tauto|constructor]); try (constructor; fail). }
  destruct (dfs_correct m Hloaded (Map.dfsBound m) entrance [] [] Hb) as [new [Hd [Hgood Hne]]].
  { unfold Map.dfsBound. cbn [List.length]. lia. }
  cbn [List.map rev app] in Hd.
  assert (Hplanned : Map.plannedPaths m = new).
  { unfold Map.plannedPaths. unfold Spec.tileAt in He. cbn [fst snd] in He.
    now rewrite He, Hd. }
  assert (Hiff : fst (Map.planRoads m) = true <-> exists p, Spec.roadPath m p).
  { unfold Map.planRoads. cbn [fst]. rewrite Hplanned. split.
    - intro Ht. destruct new as [|q new']; [discriminate|].
      exists (List.map Tile.position q). apply Hgood. now left.
    - intros [p [Hhd [Hnd [Hch [Hon [Hroad Hlast]]]]]].
      destruct p as [|c s]; [discriminate|]. cbn [hd_error] in Hhd. inversion Hhd; subst c.
      assert (new <> []).
      { apply Hne. rewrite Hpos. exists s. cbn [List.map tl] in *.
        repeat split; auto. inversion Hon; auto. }
      destruct new; [contradiction|reflexivity]. }
  split; [exact Hiff|]. split; [|split].
  - intros q Hq. unfold Map.planRoads in Hq. cbn [snd paths set_paths] in Hq.
    rewrite Hplanned in Hq. auto.
  - intro Hcorner. rewrite Hiff. split.
    + intros [p Hp]. exists p. split; [exact Hp|]. apply Hcorner. apply Hp.
    + intros [p [Hp _]]. eauto.
  - intros w Hw0. unfold SafariModel.setIsOpen. rewrite Hw0.
    destruct (Map.planRoads m) as [connected m']. cbn [fst]. split; intros ->; reflexivity.
Qed.

(** The theorem in the park with a road around the corner: it can open. *)
Lemma C4_planRoads_and_opening_witness :
  Spec.loadedGrid (World.map Example.roadWorld)
  /\ (exists p, Spec.roadPath (World.map Example.roadWorld) p)
  /\ ModelData.isOpen (World.model (SafariModel.setIsOpen true Example.roadWorld)) = true.
Proof.
  assert (H : Spec.loadedGrid (World.map Example.roadWorld)).
  { apply checkGrid_loaded. vm_compute. reflexivity. }
  split; [exact H|].
  destruct (C4_planRoads_and_opening (World.map Example.roadWorld) H) as [H1 [_ [_ H4]]].
  split.
  - apply H1. vm_compute. reflexivity.
  - apply (H4 Example.roadWorld eq_refl). vm_compute. reflexivity.
Defined.

End Roads.

(* ===================================================================== *)
(** ** The discipline of [act] *)
(* ===================================================================== *)

Section Discipline.

Import MapData.



(** A change that leaves the arrays alone. *)
Lemma storeGrows_same (w w' : World.t) :
  World.arrays w' = World.arrays w -> Spec.storeGrows w w'.
Proof.
  intro H. split; [rewrite H; lia|]. intros a _. exists [].
  unfold World.array. now rewrite H, app_nil_r.
Qed.

Lemma storeGrows_addSprite (reg : nat) (w : World.t) :
  Spec.storeGrows w (Map.addSprite reg w).
Proof.
  unfold Map.addSprite. split.
  - cbn. rewrite length_update. lia.
  - intros a Ha. unfold World.array. cbn.
    destruct (Nat.eq_dec (sprites (World.map w)) a) as [<-|Hne].
    + exists [reg]. rewrite nth_update_eq by exact Ha. reflexivity.
    + exists []. rewrite nth_update_neq by exact Hne. now rewrite app_nil_r.
Qed.




(** A step that changes neither the arrays nor the map, and no jeep. *)
Lemma actFrame_local (w w' : World.t) :
  World.arrays w' = World.arrays w ->
  World.map w' = World.map w ->
  (forall j, Jeep.passengers w j = [] -> Jeep.passengers w' j = []) ->
  (List.length (World.heap w) <= List.length (World.heap w'))%nat ->
  Spec.actFrame w w'.
Proof.
  intros Ha Hm Hj Hh. split; [now apply storeGrows_same|].
  rewrite Hm, Ha. repeat split; auto. exists []. now rewrite app_nil_r.
Qed.


Lemma passengers_same_heap (w w' : World.t) :
  World.heap w' = World.heap w ->
  forall j, Jeep.passengers w j = [] -> Jeep.passengers w' j = [].
Proof.
  intros H j. unfold Jeep.passengers, Jeep.field, World.read, World.deref. now rewrite H.
Qed.

Lemma actFrame_random (E : Env) (w : World.t) :
  Spec.actFrame w (snd (World.random E w)).
Proof. apply actFrame_local; try reflexivity; auto. Qed.





Lemma actFrame_addSprite (reg : nat) (w : World.t) :
  Spec.actFrame w (Map.addSprite reg w).
Proof.
  split; [apply storeGrows_addSprite|]. repeat split; auto.
  - exists []. now rewrite app_nil_r.
  - cbn. now rewrite length_update.
Qed.






End Discipline.



Section Methods.

Import MapData.















End Methods.

(* ===================================================================== *)
(** ** The classes of sprites keep the discipline *)
(* ===================================================================== *)

Section Classes.

Import MapData.







End Classes.

(* ===================================================================== *)
(** ** The loop over the sprites *)
(* ===================================================================== *)

Section Loop.

Import MapData.

Variable E : Env.
Variable act : nat -> Q -> World.t -> World.t.


Hypothesis Hact : forall r d w, Spec.storeGrows w (act r d w).




End Loop.



(* ===================================================================== *)
(** ** The dispatch of a jeep *)
(* ===================================================================== *)

Section Dispatch.

Import MapData.



Lemma housekeeping_random (E : Env) (w : World.t) :
  Spec.housekeeping w (snd (World.random E w)).
Proof. repeat split; auto. Qed.














End Dispatch.



